(** * PythonCalc: the safe expression evaluator of [calc.py]

    A shallow embedding of [eval_expr] and [_eval_node] together with the
    tables they consult ([SAFE_OPERATORS], [SAFE_FUNCTIONS], [CONSTANTS],
    [PLUGINS]), the registration loop of [load_plugins], and [main] after
    its argument parser, run on the lines of its standard input.

    The program rests on three things that are not part of its text:
    - the Python parser [ast.parse], which the general theorems take as an
      arbitrary function and which [PyParser.ast_parse] models on the
      arithmetic fragment of Python's expression grammar;
    - Python's numeric tower (arbitrary-precision [int], binary64 [float],
      [complex]), modelled with [Z] and the kernel's primitive floats;
    - the C mathematical library, whose functions are fields of [Runtime].

    Targets CPython 3.8 to 3.13, where [ast.Num] is the deprecated alias
    that recognises a [Constant] holding an int, a float or a complex.

    Left out: the resources of the interpreter. [_eval_node] recurses on
    the tree with no bound, where CPython raises [RecursionError] (an
    [Exception], which [eval_expr] reports like any other) past its
    recursion limit, and integers are unbounded, where memory is not.
    Signals delivered while the program runs ([KeyboardInterrupt]) are
    left out as well, and so are the failures of the operating system (a
    plugin directory that cannot be listed, an output that cannot be
    written) and the exit of [argparse] on a command line it refuses.

    A plugin is arbitrary code. The model lets it return a number or
    [None] and raise anything, also an exception that cannot be printed;
    it takes a plugin callable for a function of its arguments. Plugins
    that return other objects, keep state between calls or write to the
    standard output are outside the model. *)

From Stdlib Require Import ZArith Floats Bool Lia Ascii String.
From stdpp Require Import base option list strings pretty gmap.

Local Open Scope string_scope.
Local Open Scope Z_scope.

(** ** Outcomes of a Python computation *)

(** The classes deriving from [Exception] that occur in the program and in
    the library functions it calls. *)
Inductive exc_class :=
  | SyntaxError
  | ValueError
  | TypeError
  | ZeroDivisionError
  | OverflowError
  | RecursionError
  | MemoryError
  | OtherException (name : string).

(** The classes deriving from [BaseException] but not from [Exception]: a
    handler [except Exception] lets them through. *)
Inductive exit_class :=
  | SystemExit
  | KeyboardInterrupt
  | GeneratorExit.

(** An instance of [Exception] that can be printed: its class and
    [str(e)]. The exceptions of the library are of this kind. *)
Record error := Error { err_class : exc_class; err_msg : string }.

(** What arbitrary code, a plugin, can raise: besides the above, an
    instance of a class that does not derive from [Exception], and an
    instance of [Exception] whose [__str__] raises in its turn, so that
    formatting it in a handler ([f"...{e}"]) raises [raised]. *)
Inductive exception :=
  | Exc (e : error)
  | BaseExc (c : exit_class) (msg : string)
  | Unprintable (c : exc_class) (raised : exception).

Inductive outcome (E A : Type) :=
  | Ok (a : A)
  | Raise (e : E).
Arguments Ok {E A} a.
Arguments Raise {E A} e.

Definition bind {E A B} (m : outcome E A) (k : A -> outcome E B) : outcome E B :=
  match m with
  | Ok a => k a
  | Raise e => Raise e
  end.

Notation "x <- m ;; k" := (bind m (fun x => k))
  (at level 100, m at next level, right associativity).

(** A library function can only fail with an [Exception]; [lift] embeds
    its outcome among those of arbitrary code. *)
Definition lift {A} (m : outcome error A) : outcome exception A :=
  match m with
  | Ok a => Ok a
  | Raise e => Raise (Exc e)
  end.

Definition raise {A} (c : exc_class) (msg : string) : outcome error A :=
  Raise (Error c msg).

(** [[f(x) for x in xs]]: left to right, stopping at the first exception. *)
Definition mapM {E A B} (f : A -> outcome E B) : list A -> outcome E (list B) :=
  fix go (xs : list A) : outcome E (list B) :=
    match xs with
    | [] => Ok []
    | x :: xs' => y <- f x ;; ys <- go xs' ;; Ok (y :: ys)
    end.

(** ** Values *)

Inductive number :=
  | Int (z : Z)
  | Float (f : float)
  | Complex (re im : float).

(** The objects that reach the evaluator: numbers, and [None], which a
    plugin callable may return besides a number. Plugins that return
    objects of other types (a [str], a list) are outside the model. *)
Inductive value :=
  | VNum (n : number)
  | VNone.

Definition is_number (v : value) : bool :=
  match v with
  | VNum _ => true
  | VNone => false
  end.

(** A Python callable applied to a positional argument list: a library
    function can only fail with an [Exception], a plugin with anything. A
    callable is a function of its arguments: plugins that keep state
    between calls or write to the standard output are outside the model. *)
Abbreviation builtin := (list value -> outcome error value).
Abbreviation callable := (list value -> outcome exception value).

(** ** Syntax trees *)

Module ast.

Inductive operator :=
  | Add | Sub | Mult | MatMult | Div | Mod | Pow
  | LShift | RShift | BitOr | BitXor | BitAnd | FloorDiv.

Inductive unaryop :=
  | Invert | Not | UAdd | USub.

(** [type(node.op)]: the keys of [SAFE_OPERATORS] are node classes. *)
Inductive op_type :=
  | OperatorT (o : operator)
  | UnaryopT (o : unaryop).

(** The node classes [_eval_node] distinguishes. [Num] is a [Constant]
    whose value is an int, a float or a complex; every other class
    (a [Constant] of another type, [Compare], [Lambda], [Tuple],
    [Starred], ...) is [Other], named by its class. *)
#[local] Unset Elimination Schemes.
Inductive expr :=
  | Num (n : number)
  | BinOp (left : expr) (op : operator) (right : expr)
  | UnaryOp (op : unaryop) (operand : expr)
  | Call (func : expr) (args : list expr) (keywords : list (option string * expr))
  | Name (id : string)
  | Other (class : string).
#[local] Set Elimination Schemes.

End ast.
Import ast.

(** ** Binary64 helpers

    Python's [float] is the IEEE-754 binary64 format, which is what the
    kernel's [float] is; conversions from integers and decimal literals
    are done on the specification side ([spec_float]) with exact integer
    arithmetic and one rounding to nearest, ties to even. *)

Module Binary64.

Definition of_SF (x : spec_float) : float := SF2Prim x.

(** The integer [m * 2^e], rounded once. *)
Definition of_scaled_Z (m e : Z) : float :=
  of_SF (binary_normalize prec emax m e false).

(** The quotient [n / d] of two positive integers, rounded once: the
    quotient is computed to at least 62 bits and the remainder is kept as
    a sticky bit below them. *)
Definition of_ratio (neg : bool) (n d : positive) : float :=
  let k := Z.max 0 (64 + Z.log2 (Zpos d) - Z.log2 (Zpos n)) in
  let (q, r) := Z.div_eucl (Z.shiftl (Zpos n) k) (Zpos d) in
  let m := 2 * q + (if r =? 0 then 0 else 1) in
  of_SF (binary_normalize prec emax (cond_Zopp neg m) (- k - 1) neg).

(** [m * 10^e] for a decimal literal with digits [m] and exponent [e]. *)
Definition of_decimal (m : Z) (e : Z) : float :=
  match m with
  | Z0 => PrimFloat.zero
  | Zpos p =>
      if 0 <=? e then of_scaled_Z (m * 10 ^ e) 0
      else of_ratio false p (Z.to_pos (10 ^ (- e)))
  | Zneg p =>
      if 0 <=? e then of_scaled_Z (m * 10 ^ e) 0
      else of_ratio true p (Z.to_pos (10 ^ (- e)))
  end.

(** C's [fmod]: the remainder of the truncated quotient, exact, with the
    sign of the dividend. *)
Definition SFfmod (x y : spec_float) : spec_float :=
  match x, y with
  | S754_nan, _ | _, S754_nan => S754_nan
  | S754_infinity _, _ => S754_nan
  | _, S754_zero _ => S754_nan
  | S754_zero _, _ => x
  | S754_finite _ _ _, S754_infinity _ => x
  | S754_finite sx mx ex, S754_finite _ my ey =>
      let e := Z.min ex ey in
      let r := Z.rem (Zpos mx * 2 ^ (ex - e)) (Zpos my * 2 ^ (ey - e)) in
      binary_normalize prec emax (cond_Zopp sx r) e sx
  end.

Definition fmod (x y : float) : float :=
  of_SF (SFfmod (Prim2SF x) (Prim2SF y)).

(** The value of a finite float as an integer, rounded half to even
    ([float.__round__] without digits); [None] on an infinity or a NaN. *)
Definition round_half_even (x : float) : option Z :=
  match Prim2SF x with
  | S754_zero _ => Some 0
  | S754_finite s m e =>
      if 0 <=? e then Some (cond_Zopp s (Zpos m * 2 ^ e))
      else
        let d := 2 ^ (- e) in
        let q := Zpos m / d in
        let r := Zpos m mod d in
        let up := (d <? 2 * r) || ((d =? 2 * r) && Z.odd q) in
        Some (cond_Zopp s (if up then q + 1 else q))
  | S754_infinity _ | S754_nan => None
  end.

End Binary64.

(** ** The runtime's numeric operations *)

(** What the C library and CPython's transcendental code compute: taken
    as given, since no rounding is prescribed for them. *)
Record Runtime := {
  libm_sin : float -> float;
  libm_cos : float -> float;
  libm_tan : float -> float;
  libm_log : float -> float;
  libm_hypot : float -> float -> float;
  (** [float.__pow__], whose result is a float or, for a negative base
      and a fractional exponent, a complex *)
  float_pow : float -> float -> outcome error number;
  complex_pow : float * float -> float * float -> outcome error number;
  (** [float.__round__(ndigits)] with an integer [ndigits] *)
  float_round : float -> Z -> outcome error number;
}.

Module py.

Definition type_name (v : value) : string :=
  match v with
  | VNum (Int _) => "int"
  | VNum (Float _) => "float"
  | VNum (Complex _ _) => "complex"
  | VNone => "NoneType"
  end.

(** [PyLong_AsDouble] *)
Definition float_of_int (z : Z) : outcome error float :=
  let f := Binary64.of_scaled_Z z 0 in
  if is_infinity f then raise OverflowError "int too large to convert to float"
  else Ok f.

(** Two numeric operands after Python's coercion: towards [complex] when
    one is complex, else towards [float] when one is a float. *)
Inductive operands :=
  | Ints (a b : Z)
  | Floats (a b : float)
  | Complexes (a b : float * float).

Definition coerce (l r : number) : outcome error operands :=
  match l, r with
  | Int a, Int b => Ok (Ints a b)
  | Int a, Float b => x <- float_of_int a ;; Ok (Floats x b)
  | Float a, Int b => y <- float_of_int b ;; Ok (Floats a y)
  | Float a, Float b => Ok (Floats a b)
  | Complex a a', Int b => y <- float_of_int b ;; Ok (Complexes (a, a') (y, 0%float))
  | Complex a a', Float b => Ok (Complexes (a, a') (b, 0%float))
  | Int a, Complex b b' => x <- float_of_int a ;; Ok (Complexes (x, 0%float) (b, b'))
  | Float a, Complex b b' => Ok (Complexes (a, 0%float) (b, b'))
  | Complex a a', Complex b b' => Ok (Complexes (a, a') (b, b'))
  end.

Definition unsupported_operands {A} (sym : string) (l r : value) : outcome error A :=
  raise TypeError
    ("unsupported operand type(s) for " ++ sym ++ ": '" ++ type_name l
       ++ "' and '" ++ type_name r ++ "'").

(** A binary operator of the [operator] module on two objects: numbers
    are coerced and handed to [f]; [None] supports no arithmetic. *)
Definition arith (sym : string) (f : operands -> outcome error value)
    (l r : value) : outcome error value :=
  match l, r with
  | VNum a, VNum b => ops <- coerce a b ;; f ops
  | _, _ => unsupported_operands sym l r
  end.

Definition add_ops (ops : operands) : outcome error value :=
  match ops with
  | Ints a b => Ok (VNum (Int (a + b)))
  | Floats a b => Ok (VNum (Float (a + b)))
  | Complexes (a, a') (b, b') => Ok (VNum (Complex (a + b) (a' + b')))
  end.

Definition sub_ops (ops : operands) : outcome error value :=
  match ops with
  | Ints a b => Ok (VNum (Int (a - b)))
  | Floats a b => Ok (VNum (Float (a - b)))
  | Complexes (a, a') (b, b') => Ok (VNum (Complex (a - b) (a' - b')))
  end.

Definition mul_ops (ops : operands) : outcome error value :=
  match ops with
  | Ints a b => Ok (VNum (Int (a * b)))
  | Floats a b => Ok (VNum (Float (a * b)))
  | Complexes (a, a') (b, b') =>
      Ok (VNum (Complex (a * b - a' * b') (a * b' + a' * b)))
  end.

(** [long_true_divide]: the quotient of two ints, correctly rounded. *)
Definition int_true_divide (a b : Z) : outcome error value :=
  match b with
  | Z0 => raise ZeroDivisionError "division by zero"
  | _ =>
      match a with
      | Z0 => Ok (VNum (Float (if b <? 0 then (- 0)%float else 0%float)))
      | _ =>
          let q := Binary64.of_ratio (xorb (a <? 0) (b <? 0))
                     (Z.to_pos (Z.abs a)) (Z.to_pos (Z.abs b)) in
          if is_infinity q
          then raise OverflowError "integer division result too large for a float"
          else Ok (VNum (Float q))
      end
  end.

(** [_Py_c_quot]; the caller has excluded a zero divisor. *)
Definition c_quot (a b : float * float) : float * float :=
  let '(ar, ai) := a in
  let '(br, bi) := b in
  if (abs bi <=? abs br)%float then
    let ratio := (bi / br)%float in
    let denom := (br + bi * ratio)%float in
    (((ar + ai * ratio) / denom)%float, ((ai - ar * ratio) / denom)%float)
  else if (abs br <=? abs bi)%float then
    let ratio := (br / bi)%float in
    let denom := (br * ratio + bi)%float in
    (((ar * ratio + ai) / denom)%float, ((ai * ratio - ar) / denom)%float)
  else (nan, nan).

Definition truediv_ops (ops : operands) : outcome error value :=
  match ops with
  | Ints a b => int_true_divide a b
  | Floats a b =>
      if (b =? 0)%float then raise ZeroDivisionError "float division by zero"
      else Ok (VNum (Float (a / b)))
  | Complexes a (br, bi) =>
      if ((br =? 0) && (bi =? 0))%float
      then raise ZeroDivisionError "complex division by zero"
      else let '(qr, qi) := c_quot a (br, bi) in Ok (VNum (Complex qr qi))
  end.

(** [float_rem]: C's [fmod], moved into the divisor's half-line. *)
Definition float_rem (vx wx : float) : outcome error float :=
  if (wx =? 0)%float then raise ZeroDivisionError "float modulo"
  else
    let m := Binary64.fmod vx wx in
    if negb (m =? 0)%float then
      if xorb (wx <? 0)%float (m <? 0)%float then Ok (m + wx)%float
      else Ok m
    else Ok (if (wx <? 0)%float then (- 0)%float else 0%float).

Definition mod_ops (ops : operands) : outcome error value :=
  match ops with
  | Ints a b =>
      if b =? 0 then raise ZeroDivisionError "integer division or modulo by zero"
      else Ok (VNum (Int (a mod b)))
  | Floats a b => m <- float_rem a b ;; Ok (VNum (Float m))
  | Complexes _ _ => raise TypeError "can't mod complex numbers."
  end.

Section WithRuntime.
Context (rt : Runtime).

Definition pow_ops (ops : operands) : outcome error value :=
  match ops with
  | Ints a b =>
      if 0 <=? b then Ok (VNum (Int (a ^ b)))
      else
        x <- float_of_int a ;; y <- float_of_int b ;;
        n <- float_pow rt x y ;; Ok (VNum n)
  | Floats a b => n <- float_pow rt a b ;; Ok (VNum n)
  | Complexes a b => n <- complex_pow rt a b ;; Ok (VNum n)
  end.

End WithRuntime.

Definition neg (v : value) : outcome error value :=
  match v with
  | VNum (Int a) => Ok (VNum (Int (- a)))
  | VNum (Float a) => Ok (VNum (Float (- a)))
  | VNum (Complex a a') => Ok (VNum (Complex (- a) (- a')))
  | VNone => raise TypeError "bad operand type for unary -: 'NoneType'"
  end.

End py.

(** ** The [operator] module, [math] and the built-in functions *)

Module operator.

Definition binary (name sym : string) (f : py.operands -> outcome error value)
    : builtin :=
  fun args =>
    match args with
    | [a; b] => py.arith sym f a b
    | _ =>
        raise TypeError
          (name ++ " expected 2 arguments, got " ++ pretty (length args))
    end.

Definition add : builtin := binary "add" "+" py.add_ops.
Definition sub : builtin := binary "sub" "-" py.sub_ops.
Definition mul : builtin := binary "mul" "*" py.mul_ops.
Definition truediv : builtin := binary "truediv" "/" py.truediv_ops.
(** [operator.mod]; [mod] is reserved by the notation of [Z]. *)
Definition mod_ : builtin := binary "mod" "%" py.mod_ops.
Definition pow (rt : Runtime) : builtin :=
  binary "pow" "** or pow()" (py.pow_ops rt).

Definition neg : builtin :=
  fun args =>
    match args with
    | [a] => py.neg a
    | _ =>
        raise TypeError
          ("neg() takes exactly one argument (" ++ pretty (length args) ++ " given)")
    end.

End operator.

Module math.

(** [PyFloat_AsDouble] *)
Definition as_double (v : value) : outcome error float :=
  match v with
  | VNum (Int z) => py.float_of_int z
  | VNum (Float f) => Ok f
  | _ => raise TypeError ("must be real number, not " ++ py.type_name v)
  end.

(** [math_1]: a NaN out of a number, or an infinity out of a finite
    argument, is an error. *)
Definition math_1 (f : float -> float) (can_overflow : bool) (x : float)
    : outcome error float :=
  let r := f x in
  if is_nan r && negb (is_nan x) then raise ValueError "math domain error"
  else if is_infinity r && is_finite x then
    if can_overflow then raise OverflowError "math range error"
    else raise ValueError "math domain error"
  else Ok r.

Definition one_argument (name : string) (f : value -> outcome error value)
    : builtin :=
  fun args =>
    match args with
    | [x] => f x
    | _ =>
        raise TypeError
          (name ++ "() takes exactly one argument ("
             ++ pretty (length args) ++ " given)")
    end.

Definition real_function (name : string) (f : float -> float) : builtin :=
  one_argument ("math." ++ name)
    (fun v => x <- as_double v ;; r <- math_1 f false x ;; Ok (VNum (Float r))).

Section WithRuntime.
Context (rt : Runtime).

Definition sin : builtin := real_function "sin" (libm_sin rt).
Definition cos : builtin := real_function "cos" (libm_cos rt).
Definition tan : builtin := real_function "tan" (libm_tan rt).
Definition sqrt : builtin := real_function "sqrt" PrimFloat.sqrt.

(** [m_log]: the logarithm with the special cases fixed by CPython. *)
Definition m_log (x : float) : float :=
  if is_finite x then
    if (0 <? x)%float then libm_log rt x
    else if (x =? 0)%float then neg_infinity
    else nan
  else if is_nan x then x
  else if (0 <? x)%float then x
  else nan.

(** [loghelper]: an int is handled apart, so that one beyond the range of
    floats still has a logarithm. *)
Definition loghelper (v : value) : outcome error float :=
  match v with
  | VNum (Int z) =>
      if z <=? 0 then raise ValueError "math domain error"
      else
        let x := Binary64.of_scaled_Z z 0 in
        if is_infinity x then
          let e := Z.log2 z + 1 in
          let m := Binary64.of_scaled_Z z (- e) in
          let '(m, e) := if (m =? 1)%float then (0.5%float, e + 1) else (m, e) in
          Ok (m_log m + m_log 2 * Binary64.of_scaled_Z e 0)%float
        else Ok (m_log x)
  | _ => x <- as_double v ;; math_1 m_log false x
  end.

Definition log : builtin :=
  fun args =>
    match args with
    | [] => raise TypeError "log expected at least 1 argument, got 0"
    | [x] => r <- loghelper x ;; Ok (VNum (Float r))
    | [x; base] =>
        num <- loghelper x ;;
        den <- loghelper base ;;
        py.truediv_ops (py.Floats num den)
    | _ =>
        raise TypeError
          ("log expected at most 2 arguments, got " ++ pretty (length args))
    end.

End WithRuntime.

Definition pi : float := 0x1.921fb54442d18p+1%float.
Definition e : float := 0x1.5bf0a8b145769p+1%float.

End math.

Module builtins.

Definition no_round {A} (v : value) : outcome error A :=
  raise TypeError
    ("type " ++ py.type_name v ++ " doesn't define __round__ method").

(** [int.__round__(ndigits)] for a negative [ndigits]: the nearest
    multiple of [10 ^ - ndigits], ties to the even quotient. *)
Definition round_int (z ndigits : Z) : Z :=
  if 0 <=? ndigits then z
  else
    let m := 10 ^ (- ndigits) in
    let q := z / m in
    let r := z mod m in
    if (m <? 2 * r) || ((m =? 2 * r) && Z.odd q) then z - (r - m) else z - r.

Section WithRuntime.
Context (rt : Runtime).

Definition abs : builtin :=
  math.one_argument "abs" (fun v =>
    match v with
    | VNum (Int z) => Ok (VNum (Int (Z.abs z)))
    | VNum (Float f) => Ok (VNum (Float (PrimFloat.abs f)))
    | VNum (Complex re im) =>
        if is_finite re && is_finite im then
          let r := libm_hypot rt re im in
          if is_finite r then Ok (VNum (Float r))
          else raise OverflowError "absolute value too large"
        else if is_infinity re || is_infinity im then Ok (VNum (Float infinity))
        else Ok (VNum (Float nan))
    | VNone => raise TypeError "bad operand type for abs(): 'NoneType'"
    end).

Definition round_to_int (v : value) : outcome error value :=
  match v with
  | VNum (Int z) => Ok (VNum (Int z))
  | VNum (Float f) =>
      match Binary64.round_half_even f with
      | Some z => Ok (VNum (Int z))
      | None =>
          if is_nan f then raise ValueError "cannot convert float NaN to integer"
          else raise OverflowError "cannot convert float infinity to integer"
      end
  | _ => no_round v
  end.

Definition round : builtin :=
  fun args =>
    match args with
    | [] => raise TypeError "round() missing required argument 'number' (pos 1)"
    | [x] | [x; VNone] => round_to_int x
    | [x; VNum (Int ndigits)] =>
        match x with
        | VNum (Int z) => Ok (VNum (Int (round_int z ndigits)))
        | VNum (Float f) => n <- float_round rt f ndigits ;; Ok (VNum n)
        | _ => no_round x
        end
    | [x; VNum nd] =>
        match x with
        | VNum (Int _) | VNum (Float _) =>
            raise TypeError
              ("'" ++ py.type_name (VNum nd)
                 ++ "' object cannot be interpreted as an integer")
        | _ => no_round x
        end
    | _ =>
        raise TypeError
          ("round() takes at most 2 arguments ("
             ++ pretty (length args) ++ " given)")
    end.

End WithRuntime.

End builtins.

(** ** The program: tables *)

(** [SAFE_OPERATORS], keyed by the class of [node.op]. *)
Definition SAFE_OPERATORS (rt : Runtime) (op_type : ast.op_type) : option builtin :=
  match op_type with
  | OperatorT Add => Some operator.add
  | OperatorT Sub => Some operator.sub
  | OperatorT Mult => Some operator.mul
  | OperatorT Div => Some operator.truediv
  | OperatorT Pow => Some (operator.pow rt)
  | OperatorT Mod => Some operator.mod_
  | UnaryopT USub => Some operator.neg
  | _ => None
  end.

Definition SAFE_FUNCTIONS (rt : Runtime) : gmap string builtin :=
  list_to_map
    [ ("sin", math.sin rt);
      ("cos", math.cos rt);
      ("tan", math.tan rt);
      ("log", math.log rt);
      ("sqrt", math.sqrt);
      ("abs", builtins.abs rt);
      ("round", builtins.round rt) ].

(** [(1 + 5 ** 0.5) / 2], as the module computes it when it is loaded. *)
Definition phi : float := 0x1.9e3779b97f4a8p+0%float.

Definition CONSTANTS : gmap string value :=
  list_to_map
    [ ("pi", VNum (Float math.pi));
      ("e", VNum (Float math.e));
      ("phi", VNum (Float phi)) ].

(** ** The program: [load_plugins] *)

(** An attribute of a plugin module that [dir(module)] lists, as the loop
    finds it: [getattr] returns a callable or another object, or raises
    (a module can list in [__dir__] a name it does not hold). *)
Inductive attribute :=
  | Callable (f : callable)
  | NotCallable
  | Unreadable (e : exception).

(** A file of the plugin directory: its name and what executing it yields,
    the attributes [dir(module)] lists or an exception. *)
Definition plugin_file : Type := string * outcome exception (list (string * attribute)).

(** The loop over [dir(module)]: the registry as the loop leaves it, at
    its end or at the first public attribute that cannot be read. *)
Fixpoint register_module (attrs : list (string * attribute))
    (PLUGINS : gmap string callable) : gmap string callable :=
  match attrs with
  | [] => PLUGINS
  | (attr, obj) :: attrs' =>
      if negb (String.prefix "_" attr) then
        match obj with
        | Callable f => register_module attrs' (<[attr := f]> PLUGINS)
        | NotCallable => register_module attrs' PLUGINS
        | Unreadable _ => PLUGINS
        end
      else register_module attrs' PLUGINS
  end.

(** The exception that ends the loop over [dir(module)], if any. *)
Fixpoint register_failure (attrs : list (string * attribute)) : option exception :=
  match attrs with
  | [] => None
  | (attr, obj) :: attrs' =>
      if negb (String.prefix "_" attr) then
        match obj with
        | Unreadable e => Some e
        | _ => register_failure attrs'
        end
      else register_failure attrs'
  end.

(** What the [try] statement of [load_plugins] raises: nothing, or what
    gets past the handler, which catches the instances of [Exception] and
    formats the one it caught. *)
Definition loaded (executed : outcome exception (list (string * attribute)))
    : option exception :=
  match executed with
  | Ok attrs => register_failure attrs
  | Raise e => Some e
  end.

(** The registry as the [try] statement leaves it. *)
Definition registered (executed : outcome exception (list (string * attribute)))
    (PLUGINS : gmap string callable) : gmap string callable :=
  match executed with
  | Ok attrs => register_module attrs PLUGINS
  | Raise _ => PLUGINS
  end.

Definition endswith (suffix s : string) : bool :=
  String.prefix (String.rev suffix) (String.rev s).

(** [load_plugins]: [plugin_dir] is [None] when the directory does not
    exist, else the files [os.listdir] returns, in its order. A file whose
    execution or registration raises an [Exception] is reported and the
    loop goes on; what the handler does not catch, or raises itself when
    it formats the exception, ends the loop. A directory that cannot be
    listed is left out. *)
Definition load_plugins (plugin_dir : option (list plugin_file))
    (PLUGINS : gmap string callable) : outcome exception (gmap string callable) :=
  match plugin_dir with
  | None => Ok PLUGINS
  | Some files =>
      foldl (fun acc '(filename, executed) =>
               P <- acc ;;
               if endswith ".py" filename then
                 match loaded executed with
                 | None | Some (Exc _) => Ok (registered executed P)
                 | Some (BaseExc c msg) => Raise (BaseExc c msg)
                 | Some (Unprintable _ raised) => Raise raised
                 end
               else Ok P)
            (Ok PLUGINS) files
  end.

(** ** The program: [_eval_node] and [eval_expr] *)

Definition unsupported {A} : outcome exception A :=
  Raise (Exc (Error ValueError "Unsafe or unsupported expression.")).

(** [getattr(node.func, 'id', None)]: only a [Name] has an [id]. *)
Definition func_id (func : expr) : option string :=
  match func with
  | Name id => Some id
  | _ => None
  end.

Section Evaluator.
Context (rt : Runtime) (PLUGINS : gmap string callable).

Fixpoint _eval_node (node : expr) : outcome exception value :=
  match node with
  | Num n => Ok (VNum n)
  | BinOp l op r =>
      left <- _eval_node l ;;
      right <- _eval_node r ;;
      match SAFE_OPERATORS rt (OperatorT op) with
      | Some f => lift (f [left; right])
      | None => unsupported
      end
  | UnaryOp op x =>
      operand <- _eval_node x ;;
      match SAFE_OPERATORS rt (UnaryopT op) with
      | Some f => lift (f [operand])
      | None => unsupported
      end
  | Call func args _ =>
      let func_name := func_id func in
      args <- mapM _eval_node args ;;
      match func_name ≫= (SAFE_FUNCTIONS rt !!.) with
      | Some f => lift (f args)
      | None =>
          match func_name ≫= (PLUGINS !!.) with
          | Some f => f args
          | None => unsupported
          end
      end
  | Name id =>
      match CONSTANTS !! id with
      | Some c => Ok c
      | None => unsupported
      end
  | Other _ => unsupported
  end.

(** [eval_expr]: [parse] is [ast.parse(expr, mode='eval')] followed by
    [.body]. The handler catches the instances of [Exception] only, and
    formats the one it caught, which raises when its [__str__] does. *)
Definition eval_expr (parse : string -> outcome error expr) (expr : string)
    : outcome exception value :=
  match tree <- lift (parse expr) ;; _eval_node tree with
  | Ok result => Ok result
  | Raise (Exc e) =>
      Raise (Exc (Error ValueError ("Invalid expression: " ++ err_msg e)))
  | Raise (BaseExc c msg) => Raise (BaseExc c msg)
  | Raise (Unprintable _ raised) => Raise raised
  end.

End Evaluator.

(** ** A model of [ast.parse] on the arithmetic fragment

    [ast.parse] is CPython's parser. [PyParser.ast_parse] follows Python's
    lexical analysis and expression grammar on the inputs made of numeric
    literals, names, the arithmetic and bitwise operators, parentheses and
    calls with positional and keyword arguments. On any other input
    (strings, comparisons, keywords, tuples, subscripts, starred
    arguments, a keyword argument given twice, newlines, comments,
    non-ASCII characters, more than [max_tokens] tokens) it answers
    [Unmodelled] rather than guess. *)

Module PyParser.

Inductive parsed (A : Type) :=
  | Parsed (a : A)
  | Invalid (msg : string)
  | Unmodelled.
Arguments Parsed {A} a.
Arguments Invalid {A} msg.
Arguments Unmodelled {A}.

Definition pbind {A B} (m : parsed A) (k : A -> parsed B) : parsed B :=
  match m with
  | Parsed a => k a
  | Invalid msg => Invalid msg
  | Unmodelled => Unmodelled
  end.

Notation "x <~ m ;; k" := (pbind m (fun x => k))
  (at level 100, m at next level, right associativity).
Notation "' p <~ m ;; k" := (pbind m (fun p => k))
  (at level 20, p pattern, m at level 99, k at level 200).

Inductive token :=
  | NUMBER (n : number)
  | NAME (id : string)
  | OP (op : string).

(** *** Lexical analysis *)

Definition code (c : ascii) : Z := Z.of_N (N_of_ascii c).

Definition between (lo hi : string) (c : ascii) : bool :=
  match lo, hi with
  | String l _, String h _ => (code l <=? code c) && (code c <=? code h)
  | _, _ => false
  end.

Definition is_digit (c : ascii) : bool := between "0" "9" c.
Definition is_name_start (c : ascii) : bool :=
  between "a" "z" c || between "A" "Z" c || Ascii.eqb c "_".
Definition is_name_char (c : ascii) : bool := is_name_start c || is_digit c.

(** The value of [c] as a digit in [radix], if it is one. *)
Definition digit_value (radix : Z) (c : ascii) : option Z :=
  let d :=
    if is_digit c then Some (code c - 48)
    else if between "a" "f" c then Some (code c - 87)
    else if between "A" "F" c then Some (code c - 55)
    else None in
  match d with
  | Some v => if v <? radix then Some v else None
  | None => None
  end.

(** [digit (["_"] digit)*], continuing the value [acc] of the [n] digits
    already read: the value, the number of digits and the rest. An
    underscore must be followed by a digit. *)
Fixpoint digits (radix acc : Z) (n : nat) (s : string) : parsed (Z * nat * string) :=
  match s with
  | String c s' =>
      match digit_value radix c with
      | Some d => digits radix (acc * radix + d) (S n) s'
      | None =>
          if Ascii.eqb c "_" then
            match s' with
            | String c' s'' =>
                match digit_value radix c' with
                | Some d => digits radix (acc * radix + d) (S n) s''
                | None => Invalid "invalid literal"
                end
            | EmptyString => Invalid "invalid literal"
            end
          else Parsed (acc, n, s)
      end
  | EmptyString => Parsed (acc, n, s)
  end.

(** What may follow a numeric literal. A name character glued to it is an
    error, except where the tokenizer looks ahead for a keyword ([and],
    [else], [for], [if], [in], [is], [not], [or]), which is not modelled. *)
Definition number_end {A} (s : string) (k : parsed A) : parsed A :=
  match s with
  | String c _ =>
      if 128 <=? code c then Unmodelled
      else if is_name_char c then
        if existsb (Ascii.eqb c) (list_ascii_of_string "aefino") then Unmodelled
        else Invalid "invalid decimal literal"
      else k
  | EmptyString => k
  end.

Definition starts_with_digit (s : string) : bool :=
  match s with
  | String c _ => is_digit c
  | EmptyString => false
  end.

(** The integer literals with a radix prefix: [digits] must find at least
    one digit, possibly after one underscore. *)
Definition radix_literal (radix : Z) (s : string) : parsed (token * string) :=
  let body :=
    match s with
    | String "_" s' => s'
    | _ => s
    end in
  match body with
  | String c _ =>
      match digit_value radix c with
      | Some _ =>
          '(v, _, rest) <~ digits radix 0 0 body ;;
          number_end rest (Parsed (NUMBER (Int v), rest))
      | None => Invalid "invalid literal"
      end
  | EmptyString => Invalid "invalid literal"
  end.

(** An optional exponent [("e" | "E") ["+" | "-"] digitpart]: its value and
    the rest; an [e] that starts no exponent is left in place. *)
Definition exponent (s : string) : parsed (option Z * string) :=
  match s with
  | String c s' =>
      if Ascii.eqb c "e" || Ascii.eqb c "E" then
        match s' with
        | String sign s'' =>
            if Ascii.eqb sign "+" || Ascii.eqb sign "-" then
              if starts_with_digit s'' then
                '(v, _, rest) <~ digits 10 0 0 s'' ;;
                Parsed (Some (if Ascii.eqb sign "-" then - v else v), rest)
              else Invalid "invalid decimal literal"
            else if is_digit sign then
              '(v, _, rest) <~ digits 10 0 0 s' ;; Parsed (Some v, rest)
            else Parsed (None, s)
        | EmptyString => Parsed (None, s)
        end
      else Parsed (None, s)
  | EmptyString => Parsed (None, s)
  end.

(** Integer literals beyond this many digits are refused by the
    interpreters that limit the conversion; they are not modelled. *)
Definition max_int_digits : nat := 4300.

(** A decimal literal: [s] starts with a digit, or with a point followed
    by a digit. *)
Definition decimal_literal (s : string) : parsed (token * string) :=
  '(ip, n_ip, r1) <~ (if starts_with_digit s then digits 10 0 0 s else Parsed (0, 0%nat, s)) ;;
  '(m, n_fp, point, r2) <~
    match r1 with
    | String "." r =>
        if starts_with_digit r then
          '(m, n_fp, r') <~ digits 10 ip 0 r ;; Parsed (m, n_fp, true, r')
        else Parsed (ip, 0%nat, true, r)
    | _ => Parsed (ip, 0%nat, false, r1)
    end ;;
  '(ev, r3) <~ exponent r2 ;;
  let is_float := point || bool_decide (ev ≠ None) in
  let f := Binary64.of_decimal m (default 0 ev - Z.of_nat n_fp) in
  match r3 with
  | String c r4 =>
      if Ascii.eqb c "j" || Ascii.eqb c "J" then
        number_end r4 (Parsed (NUMBER (Complex 0 f), r4))
      else if is_float then number_end r3 (Parsed (NUMBER (Float f), r3))
      else if String.prefix "0" s && negb (ip =? 0) then
        Invalid "leading zeros in decimal integer literals are not permitted"
      else if (max_int_digits <? n_ip)%nat then Unmodelled
      else number_end r3 (Parsed (NUMBER (Int ip), r3))
  | EmptyString =>
      if is_float then Parsed (NUMBER (Float f), r3)
      else if String.prefix "0" s && negb (ip =? 0) then
        Invalid "leading zeros in decimal integer literals are not permitted"
      else if (max_int_digits <? n_ip)%nat then Unmodelled
      else Parsed (NUMBER (Int ip), r3)
  end.

Definition number_literal (s : string) : parsed (token * string) :=
  match s with
  | String "0" (String c s') =>
      if Ascii.eqb c "x" || Ascii.eqb c "X" then radix_literal 16 s'
      else if Ascii.eqb c "o" || Ascii.eqb c "O" then radix_literal 8 s'
      else if Ascii.eqb c "b" || Ascii.eqb c "B" then radix_literal 2 s'
      else decimal_literal s
  | _ => decimal_literal s
  end.

Fixpoint name_chars (s : string) : string * string :=
  match s with
  | String c s' =>
      if is_name_char c then let '(id, rest) := name_chars s' in (String c id, rest)
      else (EmptyString, s)
  | EmptyString => (EmptyString, s)
  end.

Definition keywords : list string :=
  [ "False"; "None"; "True"; "and"; "as"; "assert"; "async"; "await";
    "break"; "class"; "continue"; "def"; "del"; "elif"; "else"; "except";
    "finally"; "for"; "from"; "global"; "if"; "import"; "in"; "is";
    "lambda"; "nonlocal"; "not"; "or"; "pass"; "raise"; "return"; "try";
    "while"; "with"; "yield" ].

Definition is_space (c : ascii) : bool :=
  (code c =? 32) || (code c =? 9) || (code c =? 12).

Definition one_char_ops : list ascii := list_ascii_of_string "+-%@^&|~(),".

(** One token off the front of [s], which starts with no blank. *)
Definition next_token (s : string) : parsed (token * string) :=
  match s with
  | EmptyString => Unmodelled
  | String c s' =>
      if is_digit c || (Ascii.eqb c "." && starts_with_digit s') then number_literal s
      else if is_name_start c then
        let '(id, rest) := name_chars s in
        if bool_decide (id ∈ keywords) then Unmodelled
        else
          match rest with
          | String c' _ => if 128 <=? code c' then Unmodelled else Parsed (NAME id, rest)
          | EmptyString => Parsed (NAME id, rest)
          end
      else if existsb (Ascii.eqb c) one_char_ops then Parsed (OP (String c ""), s')
      else
        match c, s' with
        | "*"%char, String "*" r => Parsed (OP "**", r)
        | "*"%char, _ => Parsed (OP "*", s')
        | "/"%char, String "/" r => Parsed (OP "//", r)
        | "/"%char, _ => Parsed (OP "/", s')
        | "<"%char, String "<" r => Parsed (OP "<<", r)
        | ">"%char, String ">" r => Parsed (OP ">>", r)
        | "="%char, String "=" _ => Unmodelled
        | "="%char, _ => Parsed (OP "=", s')
        | _, _ => Unmodelled
        end
  end.

Fixpoint tokens (fuel : nat) (s : string) : parsed (list token) :=
  match fuel with
  | O => Unmodelled
  | S fuel' =>
      match s with
      | EmptyString => Parsed []
      | String c s' =>
          if is_space c then tokens fuel' s'
          else
            '(t, rest) <~ next_token s ;;
            ts <~ tokens fuel' rest ;;
            Parsed (t :: ts)
      end
  end.

(** A source that starts with a blank is an indentation error or not,
    depending on the interpreter: not modelled. *)
Definition tokenize (source : string) : parsed (list token) :=
  match source with
  | String c _ => if is_space c then Unmodelled else tokens (S (String.length source)) source
  | EmptyString => Parsed []
  end.

(** *** The expression grammar *)

(** The binary operators by precedence level, loosest first; each level
    associates to the left. *)
Definition binary_operators : list (nat * string * operator) :=
  [ (0%nat, "|", BitOr);
    (1%nat, "^", BitXor);
    (2%nat, "&", BitAnd);
    (3%nat, "<<", LShift); (3%nat, ">>", RShift);
    (4%nat, "+", Add); (4%nat, "-", Sub);
    (5%nat, "*", Mult); (5%nat, "/", Div); (5%nat, "//", FloorDiv);
    (5%nat, "%", Mod); (5%nat, "@", MatMult) ].

Definition binop_at (level : nat) (op : string) : option operator :=
  snd <$> find (fun '(l, s, _) => Nat.eqb l level && String.eqb s op) binary_operators.

Definition unaryop_of (op : string) : option unaryop :=
  if String.eqb op "-" then Some USub
  else if String.eqb op "+" then Some UAdd
  else if String.eqb op "~" then Some Invert
  else None.

Definition is_op (op : string) (t : token) : bool :=
  match t with
  | OP o => String.eqb o op
  | _ => false
  end.

(** A star opens a starred element or argument: not modelled. *)
Definition is_star (t : token) : bool := is_op "*" t || is_op "**" t.

Definition syntax_error {A} : parsed A := Invalid "invalid syntax".

(** [expression level] parses the binary operators from [level] on and,
    past the last level, a [factor]; [power] is [primary ['**' factor]],
    which makes [**] associate to the right and bind tighter than a unary
    operator on its left. The fuel bounds the depth of the descent. *)
Fixpoint expression (fuel : nat) (level : nat) (ts : list token) {struct fuel}
    : parsed (expr * list token) :=
  match fuel with
  | O => Unmodelled
  | S fuel' =>
      if (level <? 6)%nat then
        '(lhs, rest) <~ expression fuel' (S level) ts ;;
        binary_tail fuel' level lhs rest
      else factor fuel' ts
  end
with binary_tail (fuel : nat) (level : nat) (lhs : expr) (ts : list token) {struct fuel}
    : parsed (expr * list token) :=
  match fuel with
  | O => Unmodelled
  | S fuel' =>
      match ts with
      | OP op :: ts' =>
          match binop_at level op with
          | Some o =>
              '(rhs, rest) <~ expression fuel' (S level) ts' ;;
              binary_tail fuel' level (BinOp lhs o rhs) rest
          | None => Parsed (lhs, ts)
          end
      | _ => Parsed (lhs, ts)
      end
  end
with factor (fuel : nat) (ts : list token) {struct fuel} : parsed (expr * list token) :=
  match fuel with
  | O => Unmodelled
  | S fuel' =>
      match ts with
      | OP op :: ts' =>
          match unaryop_of op with
          | Some u => '(x, rest) <~ factor fuel' ts' ;; Parsed (UnaryOp u x, rest)
          | None => power fuel' ts
          end
      | _ => power fuel' ts
      end
  end
with power (fuel : nat) (ts : list token) {struct fuel} : parsed (expr * list token) :=
  match fuel with
  | O => Unmodelled
  | S fuel' =>
      '(base, rest) <~ atom fuel' ts ;;
      '(base, rest) <~ trailers fuel' base rest ;;
      match rest with
      | t :: ts' =>
          if is_op "**" t then
            '(e, rest') <~ factor fuel' ts' ;; Parsed (BinOp base Pow e, rest')
          else Parsed (base, rest)
      | [] => Parsed (base, rest)
      end
  end
with atom (fuel : nat) (ts : list token) {struct fuel} : parsed (expr * list token) :=
  match fuel with
  | O => Unmodelled
  | S fuel' =>
      match ts with
      | NUMBER n :: rest => Parsed (Num n, rest)
      | NAME id :: rest => Parsed (Name id, rest)
      | t :: ts' =>
          if is_star t then Unmodelled
          else if is_op "(" t then
            match ts' with
            | t' :: _ =>
                if is_op ")" t' then Unmodelled
                else
                  '(e, rest) <~ expression fuel' 0 ts' ;;
                  match rest with
                  | t'' :: rest' =>
                      if is_op ")" t'' then Parsed (e, rest')
                      else if is_op "," t'' then Unmodelled
                      else syntax_error
                  | [] => syntax_error
                  end
            | [] => syntax_error
            end
          else syntax_error
      | [] => syntax_error
      end
  end
with trailers (fuel : nat) (func : expr) (ts : list token) {struct fuel}
    : parsed (expr * list token) :=
  match fuel with
  | O => Unmodelled
  | S fuel' =>
      match ts with
      | t :: ts' =>
          if is_op "(" t then
            '(args, keywords, rest) <~ arguments fuel' [] [] ts' ;;
            trailers fuel' (Call func args keywords) rest
          else Parsed (func, ts)
      | [] => Parsed (func, ts)
      end
  end
with arguments (fuel : nat) (args : list expr) (keywords : list (option string * expr))
    (ts : list token) {struct fuel}
    : parsed (list expr * list (option string * expr) * list token) :=
  match fuel with
  | O => Unmodelled
  | S fuel' =>
      let next (args : list expr) (keywords : list (option string * expr))
               (rest : list token) :=
        match rest with
        | t :: rest' =>
            if is_op "," t then arguments fuel' args keywords rest'
            else if is_op ")" t then Parsed (args, keywords, rest')
            else syntax_error
        | [] => syntax_error
        end in
      match ts with
      | [] => syntax_error
      | t :: ts' =>
          if is_op ")" t then Parsed (args, keywords, ts')
          else if is_star t then Unmodelled
          else
            match t, ts' with
            | NAME id, OP "=" :: ts'' =>
                if bool_decide (Some id ∈ keywords.*1) then Unmodelled
                else
                  '(e, rest) <~ expression fuel' 0 ts'' ;;
                  next args (keywords ++ [(Some id, e)])%list rest
            | _, _ =>
                '(e, rest) <~ expression fuel' 0 ts ;;
                match keywords with
                | [] => next (args ++ [e])%list keywords rest
                | _ :: _ => Invalid "positional argument follows keyword argument"
                end
            end
      end
  end.

(** Inputs of more tokens than this are left out, which keeps the model
    clear of the parser's nesting limits. *)
Definition max_tokens : nat := 64.

(** The model of [ast.parse(source, mode='eval').body]: [None] outside the
    fragment, else the tree or the [SyntaxError]. The message of the
    error is the model's: the one of CPython also names the position. *)
Definition ast_parse (source : string) : option (outcome error expr) :=
  match tokenize source with
  | Unmodelled => None
  | Invalid msg => Some (raise SyntaxError msg)
  | Parsed [] => Some (raise SyntaxError "invalid syntax")
  | Parsed ts =>
      if (max_tokens <? length ts)%nat then None
      else
        match expression (16 * S (length ts)) 0 ts with
        | Unmodelled => None
        | Invalid msg => Some (raise SyntaxError msg)
        | Parsed (e, []) => Some (Ok e)
        | Parsed (_, t :: _) =>
            if is_op "," t then None else Some (raise SyntaxError "invalid syntax")
        end
  end.

(** A parser that is [ast.parse] wherever the model speaks: it returns
    the tree of the model, and refuses what the model refuses, whatever
    the exception and its message, which names the position of the error
    and differs between the versions of the interpreter. *)
Definition agrees (parse : string -> outcome error expr) : Prop :=
  forall source r,
    ast_parse source = Some r ->
    match r with
    | Ok tree => parse source = Ok tree
    | Raise _ => exists e, parse source = Raise e
    end.

(** The model, completed with a [SyntaxError] outside the fragment. *)
Definition total (source : string) : outcome error expr :=
  default (raise SyntaxError "outside the modelled fragment") (ast_parse source).

End PyParser.

(** ** The program: [main]

    [main] from the return of [parse_args] on: [expression] is
    [args.expression], [None] when the argument is absent. The standard
    input is the list of the lines still to be read; past its end [input]
    raises [EOFError]. The standard output is the list of what is
    written, in order. [str] is Python's conversion of a result to text,
    which raises a [ValueError] on an int of more digits than the
    interpreter converts. The loop is run for [fuel] rounds.

    Left out: the exit of [parse_args] on a command line it refuses or
    on [--help], which happens before anything else, and the failures of
    the operating system (a plugin directory that cannot be listed, a
    standard output that cannot be written). *)

Inductive event :=
  | Printed (line : string)
  | Prompted (prompt : string).

(** How a run ends: [main] returns, or an exception leaves it uncaught, or
    the loop is still [Running] when the fuel is spent. *)
Inductive ending :=
  | Returned
  | Running
  | Uncaught (e : exception).

(** What [load_plugins] prints: a line for each [.py] file whose execution
    or registration raises an [Exception], up to a file that raises past
    the handler. *)
Fixpoint load_plugins_prints (files : list plugin_file) : list string :=
  match files with
  | [] => []
  | (filename, executed) :: files' =>
      if endswith ".py" filename then
        match loaded executed with
        | None => load_plugins_prints files'
        | Some (Exc e) =>
            ("Failed to load plugin " ++ filename ++ ": " ++ err_msg e)
              :: load_plugins_prints files'
        | Some _ => []
        end
      else load_plugins_prints files'
  end.

(** [str.lower] on the ASCII letters, which is all that can turn a line
    into "exit" or "quit". *)
Definition lower_char (c : ascii) : ascii :=
  if PyParser.between "A" "Z" c then ascii_of_N (N_of_ascii c + 32) else c.

Fixpoint lower (s : string) : string :=
  match s with
  | EmptyString => EmptyString
  | String c s' => String (lower_char c) (lower s')
  end.

Definition is_exit (expr : string) : bool :=
  bool_decide (lower expr ∈ ["exit"; "quit"]).

Section Main.
Context (rt : Runtime) (parse : string -> outcome error expr)
        (str : value -> outcome error string).

(** The body of both [try] statements after the evaluation: the result is
    printed, and when its conversion to text raises, that [Exception] is
    caught like one of the evaluation; an [Exception] is printed after
    "Error: "; anything else, and what formatting the exception raises,
    leaves [main]. *)
Definition report (r : outcome exception value) : list event * option exception :=
  match r with
  | Ok result =>
      match str result with
      | Ok text => ([Printed text], None)
      | Raise e => ([Printed ("Error: " ++ err_msg e)], None)
      end
  | Raise (Exc e) => ([Printed ("Error: " ++ err_msg e)], None)
  | Raise (BaseExc c msg) => ([], Some (BaseExc c msg))
  | Raise (Unprintable _ raised) => ([], Some raised)
  end.

Definition EOFError : error :=
  Error (OtherException "EOFError") "EOF when reading a line".

(** The [while True] loop. *)
Fixpoint repl (PLUGINS : gmap string callable) (fuel : nat) (stdin : list string)
    : list event * ending :=
  match fuel with
  | O => ([], Running)
  | S fuel' =>
      match stdin with
      | [] =>
          let '(out, e) := repl PLUGINS fuel' [] in
          (Prompted ">>> " :: Printed ("Error: " ++ err_msg EOFError) :: out, e)
      | expr :: stdin' =>
          if is_exit expr then ([Prompted ">>> "], Returned)
          else
            match report (eval_expr rt PLUGINS parse expr) with
            | (printed, None) =>
                let '(out, e) := repl PLUGINS fuel' stdin' in
                (Prompted ">>> " :: printed ++ out, e)%list
            | (printed, Some exc) => (Prompted ">>> " :: printed, Uncaught exc)
            end
      end
  end.

Definition main (plugin_dir : option (list plugin_file))
    (expression : option string) (fuel : nat) (stdin : list string)
    : list event * ending :=
  let prints := Printed <$> load_plugins_prints (default [] plugin_dir) in
  match load_plugins plugin_dir ∅ with
  | Raise exc => (prints, Uncaught exc)
  | Ok PLUGINS =>
      match expression with
      | Some (String c s) =>
          match report (eval_expr rt PLUGINS parse (String c s)) with
          | (printed, None) => (prints ++ printed, Returned)%list
          | (printed, Some exc) => (prints ++ printed, Uncaught exc)%list
          end
      | _ =>
          let '(out, e) := repl PLUGINS fuel stdin in
          (prints ++ Printed "Interactive mode (type 'exit' to quit)" :: out, e)%list
      end
  end.

End Main.

(** A runtime without a mathematical library: every transcendental
    function is undefined (NaN) and the float powers are refused. It runs
    the integer and the basic float arithmetic, which call none of them. *)
Definition bare_runtime : Runtime := {|
  libm_sin := fun _ => nan;
  libm_cos := fun _ => nan;
  libm_tan := fun _ => nan;
  libm_log := fun _ => nan;
  libm_hypot := fun _ _ => nan;
  float_pow := fun _ _ => raise OverflowError "(34, 'Numerical result out of range')";
  complex_pow := fun _ _ => raise OverflowError "complex exponentiation";
  float_round := fun _ _ => raise OverflowError "rounded value too large to represent";
|}.

(** ** Induction on syntax trees *)

Section expr_induction.
Variable P : expr -> Prop.
Hypothesis HNum : forall n, P (Num n).
Hypothesis HBinOp : forall l op r, P l -> P r -> P (BinOp l op r).
Hypothesis HUnaryOp : forall op x, P x -> P (UnaryOp op x).
Hypothesis HCall : forall func args keywords,
  P func -> Forall P args -> P (Call func args keywords).
Hypothesis HName : forall id, P (Name id).
Hypothesis HOther : forall class, P (Other class).

Fixpoint expr_ind (node : expr) : P node :=
  match node with
  | Num n => HNum n
  | BinOp l op r => HBinOp l op r (expr_ind l) (expr_ind r)
  | UnaryOp op x => HUnaryOp op x (expr_ind x)
  | Call func args keywords =>
      HCall func args keywords (expr_ind func)
        ((fix all (l : list expr) : Forall P l :=
            match l with
            | [] => List.Forall_nil P
            | x :: l' => List.Forall_cons P x l' (expr_ind x) (all l')
            end) args)
  | Name id => HName id
  | Other class => HOther class
  end.

End expr_induction.

(** ** Vocabulary of the statements *)

(** The keys of [SAFE_FUNCTIONS] and of [CONSTANTS]. *)
Definition function_names : list string :=
  ["sin"; "cos"; "tan"; "log"; "sqrt"; "abs"; "round"].

Definition constant_names : list string := ["pi"; "e"; "phi"].

(** A plugin that returns 42 whatever it is given. *)
Definition answer : callable := fun _ => Ok (VNum (Int 42)).

(** The real numbers of Python: what [math] takes without complaint. *)
Definition is_real (v : value) : bool :=
  match v with
  | VNum (Int _) | VNum (Float _) => true
  | _ => false
  end.

(** The built-in functions of one argument, and those of one or two. *)
Definition unary_functions : list string := ["sin"; "cos"; "tan"; "sqrt"; "abs"].
Definition one_or_two_functions : list string := ["log"; "round"].



Definition is_float (v : value) : bool :=
  match v with
  | VNum (Float _) => true
  | _ => false
  end.

(** A plugin that returns nothing, as a Python function without a
    [return] does, and one that leaves the interpreter. *)
Definition silent : callable := fun _ => Ok VNone.
Definition quit : callable := fun _ => Raise (BaseExc SystemExit "").

(** Plugins that return numbers and raise nothing but instances of
    [Exception] that can be printed. *)
Definition well_behaved (PLUGINS : gmap string callable) : Prop :=
  forall name f vs,
    PLUGINS !! name = Some f ->
    match f vs with
    | Ok v => is_number v = true
    | Raise (Exc _) => True
    | Raise _ => False
    end.

(** The allow-list: the node shapes [_eval_node] gives a value to. *)
Definition on_allow_list (rt : Runtime) (PLUGINS : gmap string callable)
    (node : expr) : Prop :=
  match node with
  | Num _ => True
  | BinOp _ op _ => is_Some (SAFE_OPERATORS rt (OperatorT op))
  | UnaryOp op _ => is_Some (SAFE_OPERATORS rt (UnaryopT op))
  | Call func _ _ =>
      exists name,
        func = Name name
        /\ (is_Some (SAFE_FUNCTIONS rt !! name) \/ is_Some (PLUGINS !! name))
  | Name id => is_Some (CONSTANTS !! id)
  | Other _ => False
  end.

(** The nodes [_eval_node] visits from a node: the node, the operands of
    an operator and the positional arguments of a call. It visits neither
    the [func] of a call, which it only inspects, nor its keywords. *)
Inductive visits : expr -> expr -> Prop :=
  | visits_here node : visits node node
  | visits_left l op r sub : visits l sub -> visits (BinOp l op r) sub
  | visits_right l op r sub : visits r sub -> visits (BinOp l op r) sub
  | visits_operand op x sub : visits x sub -> visits (UnaryOp op x) sub
  | visits_arg func args keywords arg sub :
      arg ∈ args -> visits arg sub -> visits (Call func args keywords) sub.

(** What leaves a handler [except Exception] that formats the exception
    it caught, when the exception is no printable instance of
    [Exception]: the exception itself, which the handler does not catch,
    or what its [__str__] raises. *)
Definition escaping (raised : exception) : exception :=
  match raised with
  | Unprintable _ raised' => raised'
  | _ => raised
  end.


(** The positive zero on the specification side of the floats. *)
Definition SFzero : spec_float := S754_zero false.

(** A plugin file with a private callable, a public one and a public
    attribute that is no callable. *)
Definition tools_py : plugin_file :=
  ("tools.py", Ok [("_hidden", Callable quit);
                   ("answer", Callable answer);
                   ("version", NotCallable)]).

(** The integer an expression denotes when it is built from integer
    literals with [+], [-], [*], unary minus, [%] by a nonzero integer and
    [**] with an exponent that is not negative. *)
Fixpoint int_value (node : expr) : option Z :=
  match node with
  | Num (Int z) => Some z
  | BinOp l op r =>
      a ← int_value l;
      b ← int_value r;
      match op with
      | Add => Some (a + b)
      | Sub => Some (a - b)
      | Mult => Some (a * b)
      | Mod => if b =? 0 then None else Some (a - b * (a / b))
      | Pow => if b <? 0 then None else Some (a ^ b)
      | _ => None
      end
  | UnaryOp USub x => a ← int_value x; Some (- a)
  | _ => None
  end.

(** The functions of [math] among the built-in functions. *)
Definition math_functions : list string := ["sin"; "cos"; "tan"; "sqrt"; "log"].

(** [math]'s complaint about an argument outside the domain. *)
Definition domain_error : error := Error ValueError "math domain error".

(** [str] on the integers, with the limit that the interpreter sets on
    the conversion since 3.11; the text of a float or of a complex is not
    modelled, and the runs below print none. *)
Definition str_of_int (v : value) : outcome error string :=
  match v with
  | VNum (Int z) =>
      if Z.abs z <? 10 ^ 4300 then Ok (pretty z)
      else raise ValueError
             "Exceeds the limit (4300 digits) for integer string conversion; use sys.set_int_max_str_digits() to increase the limit"
  | VNum _ => Ok "?"
  | VNone => Ok "None"
  end.

(** A plugin directory without code: it is absent or holds no [.py] file,
    so that nothing of it is executed. *)
Definition no_plugin_code (plugin_dir : option (list plugin_file)) : Prop :=
  forall files,
    plugin_dir = Some files ->
    Forall (fun file : plugin_file => endswith ".py" file.1 = false) files.

(** The line [main] prints for a value of [eval_expr] or for an exception
    that can be printed. *)
Definition printed_line (str : value -> outcome error string)
    (r : outcome exception value) : string :=
  match r with
  | Ok result =>
      match str result with
      | Ok text => text
      | Raise e => "Error: " ++ err_msg e
      end
  | Raise (Exc e) => "Error: " ++ err_msg e
  | Raise _ => ""
  end.

(** What [main] writes without plugins for the lines it reads: the prompt
    and one line for each; and what it writes in [n] rounds at the end of
    the input. *)
Definition transcript (rt : Runtime) (parse : string -> outcome error expr)
    (str : value -> outcome error string) (lines : list string) : list event :=
  lines ≫= fun line =>
    [Prompted ">>> "; Printed (printed_line str (eval_expr rt ∅ parse line))].

Definition at_end_of_input (n : nat) : list event :=
  mjoin (replicate n [Prompted ">>> "; Printed "Error: EOF when reading a line"]).

Definition banner : event := Printed "Interactive mode (type 'exit' to quit)".

(** The lines that end the loop. *)
Definition no_exit (lines : list string) : Prop :=
  Forall (fun line => is_exit line = false) lines.

(** [args.expression] is false: the argument is absent or empty. *)
Definition interactive (expression : option string) : Prop :=
  expression = None \/ expression = Some "".

(** A syntax tree without the keyword arguments of its calls. *)
Fixpoint without_keywords (node : expr) : expr :=
  match node with
  | BinOp l op r => BinOp (without_keywords l) op (without_keywords r)
  | UnaryOp op x => UnaryOp op (without_keywords x)
  | Call func args _ => Call func (map without_keywords args) []
  | _ => node
  end.

(** [z] is the integer nearest to the float of sign [s], mantissa [m] and
    exponent [e], whose value is [m * 2^e] or its opposite; of two
    nearest integers it is the even one. *)
Definition nearest_integer (z : Z) (s : bool) (m : positive) (e : Z) : Prop :=
  if 0 <=? e then z = cond_Zopp s (Zpos m * 2 ^ e)
  else
    let d := 2 ^ (- e) in
    let twice_the_distance := 2 * Z.abs (z * d - cond_Zopp s (Zpos m)) in
    twice_the_distance <= d /\ (twice_the_distance = d -> Z.even z = true).

(** * Properties *)

(** ** Outcomes *)

Lemma bind_Ok {E A B} (m : outcome E A) (k : A -> outcome E B) b :
  bind m k = Ok b -> exists a, m = Ok a /\ k a = Ok b.
Proof. destruct m; simpl; [eauto | discriminate]. Qed.

Lemma bind_Raise {E A B} (m : outcome E A) (k : A -> outcome E B) e :
  bind m k = Raise e -> m = Raise e \/ exists a, m = Ok a /\ k a = Raise e.
Proof. destruct m; simpl; [eauto | intros [= ->]; auto]. Qed.

Lemma lift_Ok {A} (m : outcome error A) a : lift m = Ok a -> m = Ok a.
Proof. destruct m; simpl; congruence. Qed.

Lemma lift_Raise {A} (m : outcome error A) e :
  lift m = Raise e -> exists e', e = Exc e' /\ m = Raise e'.
Proof. destruct m; simpl; [discriminate | intros [= <-]; eauto]. Qed.

Lemma mapM_Ok {E A B} (f : A -> outcome E B) xs ys :
  mapM f xs = Ok ys -> Forall2 (fun x y => f x = Ok y) xs ys.
Proof.
  revert ys. induction xs as [|x xs IH]; simpl; intros ys H.
  - injection H as <-. constructor.
  - apply bind_Ok in H as (y & Hy & H).
    apply bind_Ok in H as (ys' & Hys & [= <-]).
    constructor; auto.
Qed.

Lemma mapM_Raise {E A B} (f : A -> outcome E B) xs e :
  mapM f xs = Raise e -> exists x, x ∈ xs /\ f x = Raise e.
Proof.
  induction xs as [|x xs IH]; simpl; intros H; [discriminate|].
  apply bind_Raise in H as [H | (y & _ & H)].
  - exists x. split; [left | done].
  - apply bind_Raise in H as [H | (ys & _ & H)]; [|discriminate].
    destruct (IH H) as (x' & Hin & Hx'). exists x'. split; [by right | done].
Qed.

Lemma mapM_length {E A B} (f : A -> outcome E B) xs ys :
  mapM f xs = Ok ys -> length ys = length xs.
Proof. intros H. apply mapM_Ok in H. symmetry. by eapply Forall2_length. Qed.

(** ** The equations of [_eval_node] *)

Section Equations.
Context (rt : Runtime) (PLUGINS : gmap string callable).

Lemma eval_Num n : _eval_node rt PLUGINS (Num n) = Ok (VNum n).
Proof. reflexivity. Qed.

Lemma eval_BinOp l op r :
  _eval_node rt PLUGINS (BinOp l op r)
  = (left <- _eval_node rt PLUGINS l ;;
     right <- _eval_node rt PLUGINS r ;;
     match SAFE_OPERATORS rt (OperatorT op) with
     | Some f => lift (f [left; right])
     | None => unsupported
     end).
Proof. reflexivity. Qed.

Lemma eval_UnaryOp op x :
  _eval_node rt PLUGINS (UnaryOp op x)
  = (operand <- _eval_node rt PLUGINS x ;;
     match SAFE_OPERATORS rt (UnaryopT op) with
     | Some f => lift (f [operand])
     | None => unsupported
     end).
Proof. reflexivity. Qed.

Lemma eval_Call func args keywords :
  _eval_node rt PLUGINS (Call func args keywords)
  = (vs <- mapM (_eval_node rt PLUGINS) args ;;
     match func_id func ≫= (SAFE_FUNCTIONS rt !!.) with
     | Some f => lift (f vs)
     | None =>
         match func_id func ≫= (PLUGINS !!.) with
         | Some f => f vs
         | None => unsupported
         end
     end).
Proof. reflexivity. Qed.

Lemma eval_Name id :
  _eval_node rt PLUGINS (Name id)
  = match CONSTANTS !! id with
    | Some c => Ok c
    | None => unsupported
    end.
Proof. reflexivity. Qed.

Lemma eval_Other class : _eval_node rt PLUGINS (Other class) = unsupported.
Proof. reflexivity. Qed.

End Equations.

(** ** Running the pipeline on a source text *)

Lemma agrees_total : PyParser.agrees PyParser.total.
Proof.
  intros source r H. unfold PyParser.total. rewrite H.
  destruct r; [reflexivity | by eexists].
Qed.

(** Once the model gives the tree of [source], the pipeline runs on it
    whatever parser stands for [ast.parse]. *)
Lemma eval_expr_parsed rt PLUGINS parse source tree :
  PyParser.agrees parse ->
  PyParser.ast_parse source = Some (Ok tree) ->
  eval_expr rt PLUGINS parse source
  = match _eval_node rt PLUGINS tree with
    | Ok result => Ok result
    | Raise (Exc e) =>
        Raise (Exc (Error ValueError ("Invalid expression: " ++ err_msg e)))
    | Raise (BaseExc c msg) => Raise (BaseExc c msg)
    | Raise (Unprintable _ raised) => Raise raised
    end.
Proof.
  intros Hparse Hr. unfold eval_expr. by rewrite (Hparse _ _ Hr).
Qed.

(** What the model refuses, the pipeline reports. *)
Lemma eval_expr_refused rt PLUGINS parse source e :
  PyParser.agrees parse ->
  PyParser.ast_parse source = Some (Raise e) ->
  exists msg,
    eval_expr rt PLUGINS parse source
    = Raise (Exc (Error ValueError ("Invalid expression: " ++ msg))).
Proof.
  intros Hparse Hr. destruct (Hparse _ _ Hr) as [e' He'].
  unfold eval_expr. rewrite He'. by eexists.
Qed.

(** [run source] rewrites the pipeline on a source of the fragment into
    the evaluation of its tree, and computes. *)
Ltac run :=
  match goal with
  | H : PyParser.agrees ?parse |- context [eval_expr ?rt ?P ?parse ?source] =>
      let r := eval vm_compute in (PyParser.ast_parse source) in
      match r with
      | Some (Ok ?t) =>
          rewrite (eval_expr_parsed rt P parse source t H)
            by (vm_compute; reflexivity)
      end
  end.

(** ** Exponentiation is [**]; [^] is not on the allow-list *)

(** A binary operator outside [SAFE_OPERATORS] never yields a value. *)
Lemma unlisted_operator_fails rt PLUGINS l op r :
  SAFE_OPERATORS rt (OperatorT op) = None ->
  exists e, _eval_node rt PLUGINS (BinOp l op r) = Raise e.
Proof.
  intros Hop. rewrite eval_BinOp, Hop.
  destruct (_eval_node rt PLUGINS l); simpl; [|eauto].
  destruct (_eval_node rt PLUGINS r); simpl; eauto.
Qed.

(** C2, as the program has it: [^] is Python's bitwise exclusive or, which
    the allow-list leaves out, so that "2 ^ 3 ^ 2" is refused; the power
    operator is [**], it associates to the right, and on two ints it
    yields an int: "2 ** 3 ** 2" is 512 and "(2 ** 3) ** 2" is 64. *)
Theorem caret_is_refused_and_power_is_right_associative rt PLUGINS parse :
  PyParser.agrees parse ->
  SAFE_OPERATORS rt (OperatorT BitXor) = None
  /\ eval_expr rt PLUGINS parse "2 ^ 3 ^ 2"
     = Raise (Exc (Error ValueError
                     "Invalid expression: Unsafe or unsupported expression."))
  /\ eval_expr rt PLUGINS parse "2 ** 3 ** 2" = Ok (VNum (Int 512))
  /\ eval_expr rt PLUGINS parse "(2 ** 3) ** 2" = Ok (VNum (Int 64)).
Proof.
  intros Hparse. split; [reflexivity|].
  repeat split; run; reflexivity.
Qed.

Lemma caret_is_refused_witness :
  PyParser.agrees PyParser.total
  /\ eval_expr bare_runtime ∅ PyParser.total "2 ** 3 ** 2" = Ok (VNum (Int 512)).
Proof.
  split; [exact agrees_total|].
  apply (caret_is_refused_and_power_is_right_associative
           bare_runtime ∅ PyParser.total agrees_total).
Defined.

(** Against C2 as stated: the text parses, to a left-nested exclusive or,
    and its evaluation does not return 512.0. *)
Lemma caret_does_not_evaluate_to_512 :
  PyParser.ast_parse "2 ^ 3 ^ 2"
  = Some (Ok (BinOp (BinOp (Num (Int 2)) BitXor (Num (Int 3))) BitXor (Num (Int 2))))
  /\ eval_expr bare_runtime ∅ PyParser.total "2 ^ 3 ^ 2"
     <> Ok (VNum (Float 512)).
Proof. split; [vm_compute; reflexivity | vm_compute; discriminate]. Qed.

(** ** Numbers keep their Python type *)

(** The true quotient of two ints is a float. *)
Lemma int_true_divide_is_float a b v :
  py.int_true_divide a b = Ok v -> exists f, v = VNum (Float f).
Proof.
  unfold py.int_true_divide, raise. intros H.
  destruct b; [discriminate| |];
    (destruct a; [injection H as <-; eauto| |]);
    destruct (is_infinity _); try discriminate; injection H as <-; eauto.
Qed.

(** C7, as the program has it: a literal evaluates to the number it
    denotes, of the type it is written in; the sum, difference and product
    of two ints are ints, and only the true division turns ints into a
    float. "3 + 4" is the int 7, "3.0 + 4" the float 7.0, "7 / 2" the
    float 3.5. *)
Theorem literals_and_results_keep_their_type rt PLUGINS parse :
  PyParser.agrees parse ->
  (forall n, _eval_node rt PLUGINS (Num n) = Ok (VNum n))
  /\ (forall a b,
        _eval_node rt PLUGINS (BinOp (Num (Int a)) Add (Num (Int b)))
        = Ok (VNum (Int (a + b)))
        /\ _eval_node rt PLUGINS (BinOp (Num (Int a)) Sub (Num (Int b)))
           = Ok (VNum (Int (a - b)))
        /\ _eval_node rt PLUGINS (BinOp (Num (Int a)) Mult (Num (Int b)))
           = Ok (VNum (Int (a * b))))
  /\ (forall a b v,
        _eval_node rt PLUGINS (BinOp (Num (Int a)) Div (Num (Int b))) = Ok v ->
        exists f, v = VNum (Float f))
  /\ eval_expr rt PLUGINS parse "3 + 4" = Ok (VNum (Int 7))
  /\ eval_expr rt PLUGINS parse "3.0 + 4" = Ok (VNum (Float 7))
  /\ eval_expr rt PLUGINS parse "7 / 2" = Ok (VNum (Float 3.5)).
Proof.
  intros Hparse. split; [reflexivity|]. split; [by repeat split|].
  split.
  - intros a b v H. rewrite eval_BinOp in H. simpl in H.
    apply lift_Ok in H. by apply int_true_divide_is_float in H.
  - repeat split; run; vm_compute; reflexivity.
Qed.

Lemma literals_keep_their_type_witness :
  PyParser.agrees PyParser.total
  /\ eval_expr bare_runtime ∅ PyParser.total "3 + 4" = Ok (VNum (Int 7)).
Proof.
  split; [exact agrees_total|].
  apply (literals_and_results_keep_their_type
           bare_runtime ∅ PyParser.total agrees_total).
Defined.

(** Against C7 as stated: "3 + 4" parses to the sum of two int literals
    and does not evaluate to the float 7.0. *)
Lemma three_plus_four_is_not_a_float :
  PyParser.ast_parse "3 + 4" = Some (Ok (BinOp (Num (Int 3)) Add (Num (Int 4))))
  /\ eval_expr bare_runtime ∅ PyParser.total "3 + 4" <> Ok (VNum (Float 7)).
Proof. split; [vm_compute; reflexivity | vm_compute; discriminate]. Qed.

(** ** Numeric literals are Python's *)

(** C8, as the program has it: the literals are those of Python, so that
    integers may be written in base 16, 8 or 2 and digits may be grouped
    with underscores; a name glued to a number is a syntax error, which
    the pipeline reports as a [ValueError]. *)
Theorem numeric_literals_are_pythons rt PLUGINS parse :
  PyParser.agrees parse ->
  eval_expr rt PLUGINS parse "0x10" = Ok (VNum (Int 16))
  /\ eval_expr rt PLUGINS parse "0o17" = Ok (VNum (Int 15))
  /\ eval_expr rt PLUGINS parse "0b101" = Ok (VNum (Int 5))
  /\ eval_expr rt PLUGINS parse "1_000" = Ok (VNum (Int 1000))
  /\ eval_expr rt PLUGINS parse "1000" = Ok (VNum (Int 1000))
  /\ eval_expr rt PLUGINS parse "1.5e3" = Ok (VNum (Float 1500))
  /\ eval_expr rt PLUGINS parse "2.5" = Ok (VNum (Float 2.5))
  /\ (exists msg,
        eval_expr rt PLUGINS parse "2pi"
        = Raise (Exc (Error ValueError ("Invalid expression: " ++ msg))))
  /\ eval_expr rt PLUGINS parse "2*pi" = Ok (VNum (Float (2 * math.pi))).
Proof.
  intros Hparse.
  repeat split; try (run; vm_compute; reflexivity).
  by eapply (eval_expr_refused rt PLUGINS parse "2pi" _ Hparse).
Qed.

Lemma numeric_literals_witness :
  PyParser.agrees PyParser.total
  /\ eval_expr bare_runtime ∅ PyParser.total "0x10" = Ok (VNum (Int 16)).
Proof.
  split; [exact agrees_total|].
  apply (numeric_literals_are_pythons bare_runtime ∅ PyParser.total agrees_total).
Defined.

(** Against C8 as stated: "0x10" and "1_000" are parsed, as the ints 16
    and 1000, and evaluate to them instead of failing. *)
Lemma hexadecimal_and_underscores_are_accepted :
  PyParser.ast_parse "0x10" = Some (Ok (Num (Int 16)))
  /\ PyParser.ast_parse "1_000" = Some (Ok (Num (Int 1000)))
  /\ eval_expr bare_runtime ∅ PyParser.total "0x10" = Ok (VNum (Int 16))
  /\ eval_expr bare_runtime ∅ PyParser.total "1_000" = Ok (VNum (Int 1000)).
Proof. repeat split; vm_compute; reflexivity. Qed.

(** ** The tables and their keys *)

Lemma SAFE_FUNCTIONS_keys rt name :
  is_Some (SAFE_FUNCTIONS rt !! name) <-> name ∈ function_names.
Proof.
  unfold SAFE_FUNCTIONS. rewrite <- not_eq_None_Some, <- not_elem_of_list_to_map.
  simpl. split; [apply dec_stable | tauto].
Qed.

Lemma CONSTANTS_keys id :
  is_Some (CONSTANTS !! id) <-> id ∈ constant_names.
Proof.
  unfold CONSTANTS. rewrite <- not_eq_None_Some, <- not_elem_of_list_to_map.
  simpl. split; [apply dec_stable | tauto].
Qed.

(** No name is both a built-in function and a constant. *)
Lemma function_is_no_constant rt name :
  is_Some (SAFE_FUNCTIONS rt !! name) -> CONSTANTS !! name = None.
Proof.
  rewrite SAFE_FUNCTIONS_keys. intros Hf.
  apply eq_None_not_Some. rewrite CONSTANTS_keys. intros Hc.
  unfold function_names in Hf.
  repeat (apply elem_of_cons in Hf as [-> | Hf]);
    try (apply (bool_decide_pack _) in Hc; vm_compute in Hc; done).
  by apply elem_of_nil in Hf.
Qed.

Lemma constant_is_no_function rt id :
  is_Some (CONSTANTS !! id) -> SAFE_FUNCTIONS rt !! id = None.
Proof.
  intros Hc. apply eq_None_not_Some. intros Hf.
  apply function_is_no_constant in Hf. rewrite Hf in Hc. by destruct Hc.
Qed.

(** A call of a name, once its arguments have their values. *)
Lemma eval_Call_Name rt PLUGINS id args keywords vs :
  mapM (_eval_node rt PLUGINS) args = Ok vs ->
  _eval_node rt PLUGINS (Call (Name id) args keywords)
  = match SAFE_FUNCTIONS rt !! id with
    | Some f => lift (f vs)
    | None =>
        match PLUGINS !! id with
        | Some f => f vs
        | None => unsupported
        end
    end.
Proof. intros Hvs. rewrite eval_Call, Hvs. reflexivity. Qed.

(** ** Names and calls are resolved in separate tables *)

(** C9, as the program has it: a [Name] is looked up in [CONSTANTS] and
    nowhere else, so that the name of a function, built-in or plugin,
    used bare is refused without the function being called; the refusal
    is the generic one of every unsupported expression, which names no
    name. A [Call] is looked up in [SAFE_FUNCTIONS] and [PLUGINS] and
    nowhere else: calling the name of a constant reaches the plugin of
    that name when there is one, and is refused otherwise. *)
Theorem names_and_calls_use_separate_tables rt PLUGINS :
  (forall id PLUGINS' rt',
     _eval_node rt PLUGINS (Name id) = _eval_node rt' PLUGINS' (Name id))
  /\ (forall id v,
        _eval_node rt PLUGINS (Name id) = Ok v <-> CONSTANTS !! id = Some v)
  /\ (forall id,
        is_Some (SAFE_FUNCTIONS rt !! id) ->
        _eval_node rt PLUGINS (Name id) = unsupported)
  /\ (forall id,
        is_Some (PLUGINS !! id) -> CONSTANTS !! id = None ->
        _eval_node rt PLUGINS (Name id) = unsupported)
  /\ (forall parse source id,
        parse source = Ok (Name id) ->
        CONSTANTS !! id = None ->
        eval_expr rt PLUGINS parse source
        = Raise (Exc (Error ValueError
                        "Invalid expression: Unsafe or unsupported expression.")))
  /\ (forall id args keywords vs,
        is_Some (CONSTANTS !! id) -> PLUGINS !! id = None ->
        mapM (_eval_node rt PLUGINS) args = Ok vs ->
        _eval_node rt PLUGINS (Call (Name id) args keywords) = unsupported)
  /\ (forall id args keywords vs f,
        is_Some (CONSTANTS !! id) -> PLUGINS !! id = Some f ->
        mapM (_eval_node rt PLUGINS) args = Ok vs ->
        _eval_node rt PLUGINS (Call (Name id) args keywords) = f vs).
Proof.
  split; [|split; [|split; [|split; [|split; [|split]]]]].
  - intros id PLUGINS' rt'. by rewrite !eval_Name.
  - intros id v. rewrite eval_Name.
    destruct (CONSTANTS !! id); split; (discriminate || by intros [= ->]).
  - intros id Hf. by rewrite eval_Name, (function_is_no_constant _ _ Hf).
  - intros id _ Hc. by rewrite eval_Name, Hc.
  - intros parse source id Hparse Hc. unfold eval_expr.
    rewrite Hparse. cbn [lift bind]. by rewrite eval_Name, Hc.
  - intros id args keywords vs Hc Hp Hvs.
    by rewrite (eval_Call_Name _ _ _ _ _ _ Hvs), (constant_is_no_function rt _ Hc), Hp.
  - intros id args keywords vs f Hc Hp Hvs.
    by rewrite (eval_Call_Name _ _ _ _ _ _ Hvs), (constant_is_no_function rt _ Hc), Hp.
Qed.

Lemma names_and_calls_witness :
  _eval_node bare_runtime {["answer" := answer]} (Name "sin") = unsupported
  /\ _eval_node bare_runtime {["answer" := answer]} (Name "answer") = unsupported
  /\ _eval_node bare_runtime {["answer" := answer]} (Call (Name "pi") [] [])
     = unsupported
  /\ _eval_node bare_runtime {["pi" := answer]} (Call (Name "pi") [] [])
     = Ok (VNum (Int 42)).
Proof.
  pose proof (names_and_calls_use_separate_tables
                bare_runtime {["answer" := answer]})
    as (_ & _ & Hf & Hp & _ & Hc & _).
  pose proof (names_and_calls_use_separate_tables
                bare_runtime {["pi" := answer]})
    as (_ & _ & _ & _ & _ & _ & Hplugin).
  split; [|split; [|split]].
  - apply Hf. by eexists.
  - apply Hp; [by eexists | reflexivity].
  - apply (Hc "pi" [] [] []); [by eexists | reflexivity | reflexivity].
  - apply (Hplugin "pi" [] [] [] answer); [by eexists | reflexivity | reflexivity].
Defined.

(** Against C9 as stated: there is no unknown-name error. "sqrt", the
    name of a function used bare, is refused with the error of "1 // 2",
    an operator off the allow-list, and of an unknown name. *)
Lemma bare_function_name_gets_the_generic_error :
  PyParser.ast_parse "sqrt" = Some (Ok (Name "sqrt"))
  /\ PyParser.ast_parse "1 // 2"
     = Some (Ok (BinOp (Num (Int 1)) FloorDiv (Num (Int 2))))
  /\ eval_expr bare_runtime ∅ PyParser.total "sqrt"
     = Raise (Exc (Error ValueError
                     "Invalid expression: Unsafe or unsupported expression."))
  /\ eval_expr bare_runtime ∅ PyParser.total "1 // 2"
     = eval_expr bare_runtime ∅ PyParser.total "sqrt"
  /\ eval_expr bare_runtime ∅ PyParser.total "nosuchname"
     = eval_expr bare_runtime ∅ PyParser.total "sqrt".
Proof. repeat split; vm_compute; reflexivity. Qed.

(** ** A built-in function is never shadowed *)

Lemma mapM_ext {E A B} (f g : A -> outcome E B) xs :
  Forall (fun x => f x = g x) xs -> mapM f xs = mapM g xs.
Proof.
  induction 1 as [|x xs Hx _ IH]; simpl; [done|]. by rewrite Hx, IH.
Qed.

(** Registering a callable under the name of a built-in function changes
    the value of no expression. *)
Lemma insert_builtin_name rt PLUGINS name f node :
  is_Some (SAFE_FUNCTIONS rt !! name) ->
  _eval_node rt (<[name := f]> PLUGINS) node = _eval_node rt PLUGINS node.
Proof.
  intros [b Hb].
  induction node as [n|l op r IHl IHr|op x IHx|func args keywords _ IHargs|id|class]
    using expr_ind.
  - reflexivity.
  - by rewrite !eval_BinOp, IHl, IHr.
  - by rewrite !eval_UnaryOp, IHx.
  - rewrite !eval_Call, (mapM_ext _ _ _ IHargs).
    destruct func as [| | | |id|]; try reflexivity. simpl.
    destruct (decide (name = id)) as [<-|Hne].
    + by rewrite Hb.
    + by rewrite lookup_insert_ne.
  - reflexivity.
  - reflexivity.
Qed.

Lemma register_one name f PLUGINS :
  String.prefix "_" name = false ->
  register_module [(name, Callable f)] PLUGINS = <[name := f]> PLUGINS.
Proof. intros H. unfold register_module. simpl. by rewrite H. Qed.

(** C5, as the program has it: a call looks the name up in
    [SAFE_FUNCTIONS] before [PLUGINS], so that a plugin registered under
    the name of a built-in function is never called and changes nothing;
    among plugins, the last registration of a name is the one a call
    reaches, within a module and across the files of the directory. *)
Theorem builtin_wins_and_last_plugin_wins rt PLUGINS :
  (forall name f node,
     is_Some (SAFE_FUNCTIONS rt !! name) ->
     _eval_node rt (register_module [(name, Callable f)] PLUGINS) node
     = _eval_node rt PLUGINS node)
  /\ (forall name f g args keywords vs,
        String.prefix "_" name = false ->
        SAFE_FUNCTIONS rt !! name = None ->
        mapM (_eval_node rt
                (register_module [(name, Callable f); (name, Callable g)] PLUGINS))
             args = Ok vs ->
        _eval_node rt
          (register_module [(name, Callable f); (name, Callable g)] PLUGINS)
          (Call (Name name) args keywords)
        = g vs)
  /\ (forall name f g,
        String.prefix "_" name = false ->
        exists PLUGINS',
          load_plugins (Some [("a.py", Ok [(name, Callable f)]);
                              ("b.py", Ok [(name, Callable g)])]) PLUGINS
          = Ok PLUGINS'
          /\ PLUGINS' !! name = Some g).
Proof.
  split; [|split].
  - intros name f node Hb. unfold register_module. simpl.
    destruct (String.prefix "_" name); simpl; [done|].
    by apply insert_builtin_name.
  - intros name f g args keywords vs Hname Hb Hvs.
    rewrite (eval_Call_Name _ _ _ _ _ _ Hvs), Hb.
    unfold register_module. simpl. rewrite Hname. simpl.
    by rewrite lookup_insert_eq.
  - intros name f g Hname. exists (<[name := g]> (<[name := f]> PLUGINS)).
    split; [|by rewrite lookup_insert_eq].
    unfold load_plugins. simpl.
    change (endswith ".py" "a.py") with true.
    change (endswith ".py" "b.py") with true.
    simpl. by rewrite Hname.
Qed.

Lemma builtin_wins_witness :
  is_Some (SAFE_FUNCTIONS bare_runtime !! "abs")
  /\ _eval_node bare_runtime (register_module [("abs", Callable answer)] ∅)
       (Call (Name "abs") [Num (Int (-3))] [])
     = _eval_node bare_runtime ∅ (Call (Name "abs") [Num (Int (-3))] []).
Proof.
  split; [by eexists|].
  apply (builtin_wins_and_last_plugin_wins bare_runtime ∅). by eexists.
Defined.

(** Against C5 as stated: with a plugin registered as [abs] that would
    answer 42, "abs(-3)" is still 3. *)
Lemma plugin_named_abs_is_not_called :
  PyParser.ast_parse "abs(-3)"
  = Some (Ok (Call (Name "abs") [UnaryOp USub (Num (Int 3))] []))
  /\ register_module [("abs", Callable answer)] ∅ !! "abs" = Some answer
  /\ answer [VNum (Int (-3))] = Ok (VNum (Int 42))
  /\ eval_expr bare_runtime (register_module [("abs", Callable answer)] ∅)
       PyParser.total "abs(-3)"
     = Ok (VNum (Int 3)).
Proof. repeat split; vm_compute; reflexivity. Qed.

(** ** Argument counts of the built-in functions *)

Lemma one_argument_arity name f vs :
  length vs <> 1%nat ->
  exists msg, math.one_argument name f vs = Raise (Error TypeError msg).
Proof.
  intros Hlen. unfold math.one_argument, raise.
  destruct vs as [|v [|v' vs]]; [eauto | done | eauto].
Qed.

Lemma log_arity rt vs :
  length vs <> 1%nat -> length vs <> 2%nat ->
  exists msg, math.log rt vs = Raise (Error TypeError msg).
Proof.
  intros H1 H2. unfold math.log, raise.
  destruct vs as [|v [|v' [|v'' vs]]]; [eauto | done | done | eauto].
Qed.

Lemma round_arity rt vs :
  length vs <> 1%nat -> length vs <> 2%nat ->
  exists msg, builtins.round rt vs = Raise (Error TypeError msg).
Proof.
  intros H1 H2. unfold builtins.round, raise.
  destruct vs as [|v [|v' [|v'' vs]]]; [eauto | done | done |].
  destruct v' as [[]|]; eauto.
Qed.

(** The logarithm of a real number is a float or a domain error. *)
Lemma loghelper_real rt v e :
  is_real v = true -> math.loghelper rt v = Raise e -> err_class e = ValueError.
Proof.
  destruct v as [[z|f|]|]; try discriminate; intros _;
    unfold math.loghelper, math.as_double, math.math_1, raise, bind;
    repeat case_match; intros; simplify_eq; done.
Qed.

Lemma log_of_two_reals rt vx vb e :
  is_real vx = true -> is_real vb = true ->
  math.log rt [vx; vb] = Raise e ->
  err_class e = ValueError \/ err_class e = ZeroDivisionError.
Proof.
  intros Hx Hb. unfold math.log.
  intros H. apply bind_Raise in H as [H | (num & _ & H)].
  { left. exact (loghelper_real _ _ _ Hx H). }
  apply bind_Raise in H as [H | (den & _ & H)].
  { left. exact (loghelper_real _ _ _ Hb H). }
  right. unfold py.truediv_ops, raise in H.
  destruct (den =? 0)%float; by simplify_eq.
Qed.

(** C6, as the program has it: [sin], [cos], [tan], [sqrt] and [abs] take
    one argument, [log] and [round] one or two; any other count is a
    [TypeError] of the callee. With two real arguments [log] computes a
    quotient of logarithms and raises no [TypeError]. "sqrt(16,2)" fails
    and "sqrt(16)" is 4.0. *)
Theorem argument_counts_of_builtins rt PLUGINS parse :
  PyParser.agrees parse ->
  (forall name args keywords vs,
     name ∈ unary_functions ->
     mapM (_eval_node rt PLUGINS) args = Ok vs ->
     length args <> 1%nat ->
     exists msg,
       _eval_node rt PLUGINS (Call (Name name) args keywords)
       = Raise (Exc (Error TypeError msg)))
  /\ (forall name args keywords vs,
        name ∈ one_or_two_functions ->
        mapM (_eval_node rt PLUGINS) args = Ok vs ->
        length args <> 1%nat -> length args <> 2%nat ->
        exists msg,
          _eval_node rt PLUGINS (Call (Name name) args keywords)
          = Raise (Exc (Error TypeError msg)))
  /\ (forall x base keywords vx vb,
        _eval_node rt PLUGINS x = Ok vx ->
        _eval_node rt PLUGINS base = Ok vb ->
        is_real vx = true -> is_real vb = true ->
        _eval_node rt PLUGINS (Call (Name "log") [x; base] keywords)
        = lift (num <- math.loghelper rt vx ;;
                den <- math.loghelper rt vb ;;
                py.truediv_ops (py.Floats num den))
        /\ forall msg,
             _eval_node rt PLUGINS (Call (Name "log") [x; base] keywords)
             <> Raise (Exc (Error TypeError msg)))
  /\ (exists msg,
        eval_expr rt PLUGINS parse "sqrt(16,2)"
        = Raise (Exc (Error ValueError ("Invalid expression: " ++ msg))))
  /\ eval_expr rt PLUGINS parse "sqrt(16)" = Ok (VNum (Float 4)).
Proof.
  intros Hparse. split; [|split; [|split; [|split]]].
  - intros name args keywords vs Hname Hvs Hlen.
    rewrite (eval_Call_Name _ _ _ _ _ _ Hvs).
    rewrite <- (mapM_length _ _ _ Hvs) in Hlen.
    unfold unary_functions in Hname.
    repeat (apply elem_of_cons in Hname as [-> | Hname]);
      try (change (SAFE_FUNCTIONS rt !! _) with (Some (math.sin rt))
           || change (SAFE_FUNCTIONS rt !! _) with (Some (math.cos rt))
           || change (SAFE_FUNCTIONS rt !! _) with (Some (math.tan rt))
           || change (SAFE_FUNCTIONS rt !! _) with (Some math.sqrt)
           || change (SAFE_FUNCTIONS rt !! _) with (Some (builtins.abs rt)));
      try (edestruct one_argument_arity as [msg Hmsg]; [exact Hlen|];
           eexists; unfold math.sin, math.cos, math.tan, math.sqrt,
             math.real_function, builtins.abs; by rewrite Hmsg).
    by apply elem_of_nil in Hname.
  - intros name args keywords vs Hname Hvs H1 H2.
    rewrite (eval_Call_Name _ _ _ _ _ _ Hvs).
    rewrite <- (mapM_length _ _ _ Hvs) in H1, H2.
    unfold one_or_two_functions in Hname.
    repeat (apply elem_of_cons in Hname as [-> | Hname]).
    + change (SAFE_FUNCTIONS rt !! "log") with (Some (math.log rt)).
      destruct (log_arity rt vs H1 H2) as [msg ->]. by eexists.
    + change (SAFE_FUNCTIONS rt !! "round") with (Some (builtins.round rt)).
      destruct (round_arity rt vs H1 H2) as [msg ->]. by eexists.
    + by apply elem_of_nil in Hname.
  - intros x base keywords vx vb Hx Hb Hrx Hrb.
    assert (mapM (_eval_node rt PLUGINS) [x; base] = Ok [vx; vb]) as Hvs
      by (simpl; by rewrite Hx, Hb).
    rewrite (eval_Call_Name _ _ _ _ _ _ Hvs).
    change (SAFE_FUNCTIONS rt !! "log") with (Some (math.log rt)).
    split; [reflexivity|].
    intros msg H. destruct (lift_Raise _ _ H) as (e & [= <-] & He).
    by destruct (log_of_two_reals _ _ _ _ Hrx Hrb He).
  - run. eexists. vm_compute. reflexivity.
  - run. vm_compute. reflexivity.
Qed.

Lemma argument_counts_witness :
  PyParser.agrees PyParser.total
  /\ exists msg,
       eval_expr bare_runtime ∅ PyParser.total "sqrt(16,2)"
       = Raise (Exc (Error ValueError ("Invalid expression: " ++ msg))).
Proof.
  split; [exact agrees_total|].
  apply (argument_counts_of_builtins bare_runtime ∅ PyParser.total agrees_total).
Defined.

(** Against C6 as stated: it is not the case that every call of [log]
    with two arguments is an arity error; "log(8, 2)" is none. *)
Lemma log_takes_a_base :
  PyParser.ast_parse "log(8, 2)"
  = Some (Ok (Call (Name "log") [Num (Int 8); Num (Int 2)] []))
  /\ ~ (forall rt PLUGINS args keywords,
          length args = 2%nat ->
          exists msg,
            _eval_node rt PLUGINS (Call (Name "log") args keywords)
            = Raise (Exc (Error TypeError msg))).
Proof.
  split; [vm_compute; reflexivity|].
  intros H.
  destruct (H bare_runtime ∅ [Num (Int 8); Num (Int 2)] [] eq_refl) as [msg Hmsg].
  vm_compute in Hmsg. discriminate.
Qed.

(** ** Division and modulo by zero raise *)


Ltac raised :=
  eexists; split; [reflexivity|]; simpl;
  split; [tauto | first [discriminate | done]].






(** ** Binary64: exact results of the rounding functions *)

Section SpecFloatFacts.
















End SpecFloatFacts.

(** ** Binary64: the remainder *)

Section Remainder.






End Remainder.

(** ** The sign of a float remainder *)

Section FloatRemainderSign.

Lemma Prim2SF_zero : Prim2SF 0%float = SFzero.
Proof. vm_compute. reflexivity. Qed.





End FloatRemainderSign.

(** ** The sign of a remainder follows the divisor *)





(** ** The library returns numbers *)

Lemma operators_return_numbers rt op_type f vs v :
  SAFE_OPERATORS rt op_type = Some f -> f vs = Ok v -> is_number v = true.
Proof.
  intros Hf Hv.
  destruct op_type as [[]|[]]; simpl in Hf; simplify_eq;
    revert Hv;
    unfold operator.add, operator.sub, operator.mul, operator.truediv,
      operator.mod_, operator.pow, operator.binary, operator.neg,
      py.arith, py.unsupported_operands, py.add_ops, py.sub_ops, py.mul_ops,
      py.truediv_ops, py.mod_ops, py.pow_ops, py.neg, py.int_true_divide,
      py.float_rem, raise, bind;
    repeat case_match; intros; simplify_eq; done.
Qed.

Lemma SAFE_FUNCTIONS_lookup rt name f :
  SAFE_FUNCTIONS rt !! name = Some f ->
  f ∈ [math.sin rt; math.cos rt; math.tan rt; math.log rt; math.sqrt;
       builtins.abs rt; builtins.round rt].
Proof.
  unfold SAFE_FUNCTIONS. simpl. intros H.
  repeat (apply lookup_insert_Some in H as [[_ <-] | [_ H]];
          [set_unfold; tauto|]).
  by rewrite lookup_empty in H.
Qed.

Lemma functions_return_numbers rt name f vs v :
  SAFE_FUNCTIONS rt !! name = Some f -> f vs = Ok v -> is_number v = true.
Proof.
  intros Hf Hv. apply SAFE_FUNCTIONS_lookup in Hf.
  repeat (apply elem_of_cons in Hf as [-> | Hf]);
    [..|by apply elem_of_nil in Hf];
    revert Hv;
    unfold builtins.abs, builtins.round, builtins.round_to_int,
      builtins.no_round, math.sin, math.cos, math.tan, math.sqrt,
      math.real_function, math.one_argument, math.log, math.loghelper,
      math.as_double, math.math_1, py.truediv_ops, raise, bind;
    repeat case_match; intros; simplify_eq; done.
Qed.

Lemma constants_are_numbers id v :
  CONSTANTS !! id = Some v -> is_number v = true.
Proof.
  unfold CONSTANTS. simpl. intros H.
  repeat (apply lookup_insert_Some in H as [[_ <-] | [_ H]]; [done|]).
  by rewrite lookup_empty in H.
Qed.

(** ** What [_eval_node] returns and raises *)

(** The library raises printable instances of [Exception] only: any
    other exception comes out of a plugin. *)
Lemma exception_is_from_plugin rt PLUGINS node exc :
  _eval_node rt PLUGINS node = Raise exc ->
  (forall e, exc <> Exc e) ->
  exists name f vs, PLUGINS !! name = Some f /\ f vs = Raise exc.
Proof.
  intros H Hexc. revert H.
  induction node as [n|l op r IHl IHr|op x IHx|func args keywords _ IHargs|id|class]
    using expr_ind.
  - discriminate.
  - rewrite eval_BinOp. intros H.
    apply bind_Raise in H as [H | (vl & _ & H)]; [by apply IHl|].
    apply bind_Raise in H as [H | (vr & _ & H)]; [by apply IHr|].
    destruct (SAFE_OPERATORS rt (OperatorT op)).
    + apply lift_Raise in H as (e & -> & _). by destruct (Hexc e).
    + exfalso. injection H as <-. by eapply Hexc.
  - rewrite eval_UnaryOp. intros H.
    apply bind_Raise in H as [H | (v & _ & H)]; [by apply IHx|].
    destruct (SAFE_OPERATORS rt (UnaryopT op)).
    + apply lift_Raise in H as (e & -> & _). by destruct (Hexc e).
    + exfalso. injection H as <-. by eapply Hexc.
  - rewrite eval_Call. intros H.
    apply bind_Raise in H as [H | (vs & _ & H)].
    + apply mapM_Raise in H as (arg & Harg & H).
      rewrite Forall_forall in IHargs. by apply (IHargs arg).
    + destruct (func_id func ≫= (SAFE_FUNCTIONS rt !!.)).
      { apply lift_Raise in H as (e & -> & _). by destruct (Hexc e). }
      destruct (func_id func) as [name|];
        [|exfalso; injection H as <-; by eapply Hexc].
      simpl in H.
      destruct (PLUGINS !! name) as [f|] eqn:Hf;
        [|exfalso; injection H as <-; by eapply Hexc].
      by exists name, f, vs.
  - rewrite eval_Name. intros H.
    destruct (CONSTANTS !! id); [discriminate|].
    exfalso. injection H as <-. by eapply Hexc.
  - intros H. exfalso. injection H as <-. by eapply Hexc.
Qed.

(** An exception that is no [Exception] comes out of a plugin. *)
Lemma base_exception_is_from_plugin rt PLUGINS node c msg :
  _eval_node rt PLUGINS node = Raise (BaseExc c msg) ->
  exists name f vs, PLUGINS !! name = Some f /\ f vs = Raise (BaseExc c msg).
Proof. intros H. by eapply exception_is_from_plugin. Qed.

(** With well-behaved plugins [_eval_node] raises printable instances of
    [Exception] only. *)
Lemma well_behaved_raises rt PLUGINS node exc :
  well_behaved PLUGINS ->
  _eval_node rt PLUGINS node = Raise exc ->
  exists e, exc = Exc e.
Proof.
  intros Hwb H. destruct exc as [e|c msg|c raised]; [by exists e| |].
  - apply exception_is_from_plugin in H as (name & f & vs & Hf & H); [|done].
    specialize (Hwb name f vs Hf). by rewrite H in Hwb.
  - apply exception_is_from_plugin in H as (name & f & vs & Hf & H); [|done].
    specialize (Hwb name f vs Hf). by rewrite H in Hwb.
Qed.

(** With well-behaved plugins every value is a number. *)
Lemma value_is_number rt PLUGINS node v :
  well_behaved PLUGINS ->
  _eval_node rt PLUGINS node = Ok v -> is_number v = true.
Proof.
  intros Hwb. revert v.
  induction node as [n|l op r IHl IHr|op x IHx|func args keywords _ IHargs|id|class]
    using expr_ind; intros v.
  - by intros [= <-].
  - rewrite eval_BinOp. intros H.
    apply bind_Ok in H as (vl & _ & H). apply bind_Ok in H as (vr & _ & H).
    destruct (SAFE_OPERATORS rt (OperatorT op)) eqn:Hop; [|discriminate].
    apply lift_Ok in H. by eapply operators_return_numbers.
  - rewrite eval_UnaryOp. intros H.
    apply bind_Ok in H as (vx & _ & H).
    destruct (SAFE_OPERATORS rt (UnaryopT op)) eqn:Hop; [|discriminate].
    apply lift_Ok in H. by eapply operators_return_numbers.
  - rewrite eval_Call. intros H.
    apply bind_Ok in H as (vs & _ & H).
    destruct (func_id func) as [name|]; [|discriminate]. simpl in H.
    destruct (SAFE_FUNCTIONS rt !! name) eqn:Hb.
    { apply lift_Ok in H. by eapply functions_return_numbers. }
    destruct (PLUGINS !! name) as [f|] eqn:Hf; [|discriminate].
    specialize (Hwb name f vs Hf). by rewrite H in Hwb.
  - rewrite eval_Name.
    destruct (CONSTANTS !! id) eqn:Hc; [|discriminate].
    intros [= <-]. by eapply constants_are_numbers.
  - discriminate.
Qed.

(** ** The allow-list *)

Lemma mapM_fails {E A B} (f : A -> outcome E B) xs x e :
  x ∈ xs -> f x = Raise e -> exists e', mapM f xs = Raise e'.
Proof.
  intros Hin Hx. induction Hin as [x xs|x y xs _ IH]; simpl.
  - rewrite Hx. by eexists.
  - destruct (f y); simpl; [|by eexists].
    destruct (IH Hx) as [e' ->]. by eexists.
Qed.

(** A node off the allow-list has no value. *)
Lemma off_allow_list_fails rt PLUGINS node :
  ~ on_allow_list rt PLUGINS node ->
  exists e, _eval_node rt PLUGINS node = Raise e.
Proof.
  destruct node as [n|l op r|op x|func args keywords|id|class];
    unfold on_allow_list; intros Hoff.
  - by destruct Hoff.
  - apply unlisted_operator_fails. by apply eq_None_not_Some.
  - rewrite eval_UnaryOp.
    apply eq_None_not_Some in Hoff. rewrite Hoff.
    destruct (_eval_node rt PLUGINS x); simpl; by eexists.
  - rewrite eval_Call.
    destruct (mapM (_eval_node rt PLUGINS) args); simpl; [|by eexists].
    destruct func as [| | | |name|]; simpl; try by eexists.
    destruct (SAFE_FUNCTIONS rt !! name) eqn:Hb.
    { destruct Hoff. exists name. split; [done|]. left. by eexists. }
    destruct (PLUGINS !! name) eqn:Hp.
    { destruct Hoff. exists name. split; [done|]. right. by eexists. }
    by eexists.
  - rewrite eval_Name. apply eq_None_not_Some in Hoff. rewrite Hoff. by eexists.
  - by eexists.
Qed.

(** A failure in a visited node is a failure of the node. *)
Lemma visited_failure_propagates rt PLUGINS node sub :
  visits node sub ->
  (exists e, _eval_node rt PLUGINS sub = Raise e) ->
  exists e, _eval_node rt PLUGINS node = Raise e.
Proof.
  induction 1 as [node|l op r sub _ IH|l op r sub _ IH|op x sub _ IH
                  |func args keywords arg sub Harg _ IH]; intros Hsub.
  - exact Hsub.
  - destruct (IH Hsub) as [e He]. rewrite eval_BinOp, He. by eexists.
  - destruct (IH Hsub) as [e He]. rewrite eval_BinOp, He.
    destruct (_eval_node rt PLUGINS l); simpl; by eexists.
  - destruct (IH Hsub) as [e He]. rewrite eval_UnaryOp, He. by eexists.
  - destruct (IH Hsub) as [e He]. rewrite eval_Call.
    destruct (mapM_fails _ _ _ _ Harg He) as [e' ->]. by eexists.
Qed.

Lemma mapM_Ok_elem {E A B} (f : A -> outcome E B) xs ys x :
  mapM f xs = Ok ys -> x ∈ xs -> exists y, f x = Ok y.
Proof.
  intros Hxs Hin. destruct (f x) as [y|e] eqn:Hx; [by eexists|].
  destruct (mapM_fails f xs x e Hin Hx) as [e' He']. congruence.
Qed.

(** A node that has a value is on the allow-list, and so is every node
    visited on the way. *)
Lemma value_on_allow_list rt PLUGINS node v :
  _eval_node rt PLUGINS node = Ok v -> on_allow_list rt PLUGINS node.
Proof.
  destruct node as [n|l op r|op x|func args keywords|id|class];
    unfold on_allow_list.
  - done.
  - rewrite eval_BinOp. intros H.
    apply bind_Ok in H as (vl & _ & H). apply bind_Ok in H as (vr & _ & H).
    by destruct (SAFE_OPERATORS rt (OperatorT op)).
  - rewrite eval_UnaryOp. intros H. apply bind_Ok in H as (vx & _ & H).
    by destruct (SAFE_OPERATORS rt (UnaryopT op)).
  - rewrite eval_Call. intros H. apply bind_Ok in H as (vs & _ & H).
    destruct func as [| | | |name|]; try discriminate. simpl in H.
    exists name. split; [done|].
    destruct (SAFE_FUNCTIONS rt !! name); [by left|].
    destruct (PLUGINS !! name); [by right | discriminate].
  - rewrite eval_Name. by destruct (CONSTANTS !! id).
  - discriminate.
Qed.

Lemma visited_has_value rt PLUGINS node sub v :
  visits node sub ->
  _eval_node rt PLUGINS node = Ok v ->
  exists v', _eval_node rt PLUGINS sub = Ok v'.
Proof.
  intros Hsub Hv.
  destruct (_eval_node rt PLUGINS sub) as [v'|e] eqn:He; [by eexists|].
  destruct (visited_failure_propagates rt PLUGINS node sub Hsub) as [e' He'];
    [by eexists | congruence].
Qed.

Lemma value_only_through_allow_list rt PLUGINS node v sub :
  _eval_node rt PLUGINS node = Ok v ->
  visits node sub ->
  on_allow_list rt PLUGINS sub.
Proof.
  intros Hv Hsub.
  destruct (visited_has_value rt PLUGINS node sub v Hsub Hv) as [v' Hv'].
  by eapply value_on_allow_list.
Qed.

(** ** The pipeline and its outcomes *)

(** C1, as the program has it: with plugins that return numbers and raise
    nothing but printable instances of [Exception] (in particular without
    plugins), the pipeline returns a number or raises [ValueError] on
    every input. Whatever the plugins, a node off the allow-list has no
    value, a value is only reached through nodes of the allow-list, and
    what a plugin returns is returned as it is. *)
Theorem pipeline_returns_number_or_ValueError rt PLUGINS parse :
  (well_behaved PLUGINS ->
   (forall source,
      (exists n, eval_expr rt PLUGINS parse source = Ok (VNum n))
      \/ (exists msg,
            eval_expr rt PLUGINS parse source
            = Raise (Exc (Error ValueError ("Invalid expression: " ++ msg)))))
   /\ (forall node,
         ~ on_allow_list rt PLUGINS node ->
         exists e, _eval_node rt PLUGINS node = Raise (Exc e))
   /\ (forall source node sub,
         parse source = Ok node ->
         visits node sub ->
         ~ on_allow_list rt PLUGINS sub ->
         exists msg,
           eval_expr rt PLUGINS parse source
           = Raise (Exc (Error ValueError ("Invalid expression: " ++ msg)))))
  /\ (forall node,
        ~ on_allow_list rt PLUGINS node ->
        exists exc, _eval_node rt PLUGINS node = Raise exc)
  /\ (forall node v sub,
        _eval_node rt PLUGINS node = Ok v ->
        visits node sub ->
        on_allow_list rt PLUGINS sub)
  /\ (forall source node sub,
        parse source = Ok node ->
        visits node sub ->
        ~ on_allow_list rt PLUGINS sub ->
        exists exc, eval_expr rt PLUGINS parse source = Raise exc)
  /\ (forall source name f args keywords vs v,
        parse source = Ok (Call (Name name) args keywords) ->
        SAFE_FUNCTIONS rt !! name = None ->
        PLUGINS !! name = Some f ->
        mapM (_eval_node rt PLUGINS) args = Ok vs ->
        f vs = Ok v ->
        eval_expr rt PLUGINS parse source = Ok v).
Proof.
  assert (forall source node sub,
        parse source = Ok node ->
        visits node sub ->
        ~ on_allow_list rt PLUGINS sub ->
        exists exc,
          _eval_node rt PLUGINS node = Raise exc
          /\ exists exc', eval_expr rt PLUGINS parse source = Raise exc')
    as Hoff.
  { intros source node sub Hparse Hsub Hsub_off.
    destruct (visited_failure_propagates rt PLUGINS node sub Hsub
                (off_allow_list_fails rt PLUGINS sub Hsub_off)) as [exc Hexc].
    exists exc. split; [exact Hexc|].
    unfold eval_expr. rewrite Hparse. cbn [lift bind]. rewrite Hexc.
    destruct exc as [e|c msg|c raised]; by eexists. }
  split; [|split; [|split; [|split]]].
  - intros Hwb.
    assert (forall source,
      (exists n, eval_expr rt PLUGINS parse source = Ok (VNum n))
      \/ (exists msg,
            eval_expr rt PLUGINS parse source
            = Raise (Exc (Error ValueError ("Invalid expression: " ++ msg)))))
      as Hall.
    { intros source. unfold eval_expr.
      destruct (parse source) as [tree|e]; cbn [lift bind]; [|right; by eexists].
      destruct (_eval_node rt PLUGINS tree) as [v|exc] eqn:Hv.
      - left. apply (value_is_number _ _ _ _ Hwb) in Hv.
        destruct v; [by eexists | discriminate].
      - destruct (well_behaved_raises _ _ _ _ Hwb Hv) as [e ->].
        right. by eexists. }
    split; [exact Hall|]. split.
    + intros node Hnode.
      destruct (off_allow_list_fails rt PLUGINS node Hnode) as [exc Hexc].
      destruct (well_behaved_raises _ _ _ _ Hwb Hexc) as [e ->]. by exists e.
    + intros source node sub Hparse Hsub Hsub_off.
      destruct (Hoff source node sub Hparse Hsub Hsub_off)
        as (exc & Hexc & exc' & Hexc').
      destruct (Hall source) as [[n Hn]|Hmsg]; [|exact Hmsg].
      rewrite Hn in Hexc'. discriminate.
  - apply off_allow_list_fails.
  - intros node v sub. apply value_only_through_allow_list.
  - intros source node sub Hparse Hsub Hsub_off.
    by destruct (Hoff source node sub Hparse Hsub Hsub_off) as (_ & _ & H).
  - intros source name f args keywords vs v Hparse Hb Hf Hvs Hv.
    unfold eval_expr. rewrite Hparse. cbn [lift bind].
    by rewrite (eval_Call_Name _ _ _ _ _ _ Hvs), Hb, Hf, Hv.
Qed.

Lemma answer_is_well_behaved : well_behaved {["answer" := answer]}.
Proof.
  intros name f vs H. apply lookup_singleton_Some in H as [_ <-]. done.
Qed.

Lemma pipeline_witness :
  well_behaved {["answer" := answer]}
  /\ ((exists n,
         eval_expr bare_runtime {["answer" := answer]} PyParser.total
           "answer() + 1" = Ok (VNum n))
      \/ (exists msg,
            eval_expr bare_runtime {["answer" := answer]} PyParser.total
              "answer() + 1"
            = Raise (Exc (Error ValueError ("Invalid expression: " ++ msg))))).
Proof.
  split; [exact answer_is_well_behaved|].
  apply (proj1 (pipeline_returns_number_or_ValueError
                  bare_runtime {["answer" := answer]} PyParser.total)
           answer_is_well_behaved).
Defined.

(** Against C1 as stated: with a plugin that returns [None], "silent()" is
    parsed and the pipeline returns [None], which is no number. *)
Lemma plugin_may_return_no_number :
  PyParser.ast_parse "silent()" = Some (Ok (Call (Name "silent") [] []))
  /\ eval_expr bare_runtime {["silent" := silent]} PyParser.total "silent()"
     = Ok VNone.
Proof. split; vm_compute; reflexivity. Qed.

(** C10, as the program has it: a printable instance of [Exception]
    raised by the parser, by an operator, by a built-in function or by a
    plugin is re-raised as a [ValueError] whose message starts with
    "Invalid expression: "; a value is returned as it is. Only a plugin
    makes the pipeline raise anything else: an exception that is no
    instance of [Exception] goes through the handler unchanged, and for
    an instance whose [__str__] raises, what it raises leaves the
    handler. *)
Theorem exceptions_are_reraised_as_ValueError rt PLUGINS parse source :
  (forall e,
     parse source = Raise e ->
     eval_expr rt PLUGINS parse source
     = Raise (Exc (Error ValueError ("Invalid expression: " ++ err_msg e))))
  /\ (forall tree e,
        parse source = Ok tree ->
        _eval_node rt PLUGINS tree = Raise (Exc e) ->
        eval_expr rt PLUGINS parse source
        = Raise (Exc (Error ValueError ("Invalid expression: " ++ err_msg e))))
  /\ (forall name f args keywords vs e,
        parse source = Ok (Call (Name name) args keywords) ->
        SAFE_FUNCTIONS rt !! name = None ->
        PLUGINS !! name = Some f ->
        mapM (_eval_node rt PLUGINS) args = Ok vs ->
        f vs = Raise (Exc e) ->
        eval_expr rt PLUGINS parse source
        = Raise (Exc (Error ValueError ("Invalid expression: " ++ err_msg e))))
  /\ (forall tree v,
        parse source = Ok tree ->
        _eval_node rt PLUGINS tree = Ok v ->
        eval_expr rt PLUGINS parse source = Ok v)
  /\ (forall tree raised,
        parse source = Ok tree ->
        _eval_node rt PLUGINS tree = Raise raised ->
        (forall e, raised <> Exc e) ->
        eval_expr rt PLUGINS parse source = Raise (escaping raised))
  /\ ((exists v, eval_expr rt PLUGINS parse source = Ok v)
      \/ (exists msg,
            eval_expr rt PLUGINS parse source
            = Raise (Exc (Error ValueError ("Invalid expression: " ++ msg))))
      \/ (exists raised name f vs,
            eval_expr rt PLUGINS parse source = Raise (escaping raised)
            /\ (forall e, raised <> Exc e)
            /\ PLUGINS !! name = Some f
            /\ f vs = Raise raised))
  /\ (well_behaved PLUGINS ->
      (exists v, eval_expr rt PLUGINS parse source = Ok v)
      \/ (exists msg,
            eval_expr rt PLUGINS parse source
            = Raise (Exc (Error ValueError ("Invalid expression: " ++ msg))))).
Proof.
  assert (forall tree e,
        parse source = Ok tree ->
        _eval_node rt PLUGINS tree = Raise (Exc e) ->
        eval_expr rt PLUGINS parse source
        = Raise (Exc (Error ValueError ("Invalid expression: " ++ err_msg e))))
    as Htree.
  { intros tree e Hparse He. unfold eval_expr.
    rewrite Hparse. cbn [lift bind]. by rewrite He. }
  assert (forall tree raised,
        parse source = Ok tree ->
        _eval_node rt PLUGINS tree = Raise raised ->
        (forall e, raised <> Exc e) ->
        eval_expr rt PLUGINS parse source = Raise (escaping raised))
    as Hraised.
  { intros tree raised Hparse Hv Hexc. unfold eval_expr.
    rewrite Hparse. cbn [lift bind]. rewrite Hv.
    destruct raised as [e|c msg|c raised]; [by destruct (Hexc e)|done..]. }
  split; [|split; [exact Htree|split; [|split; [|split; [exact Hraised|split]]]]].
  - intros e Hparse. unfold eval_expr. by rewrite Hparse.
  - intros name f args keywords vs e Hparse Hb Hf Hvs He.
    apply (Htree _ _ Hparse).
    by rewrite (eval_Call_Name _ _ _ _ _ _ Hvs), Hb, Hf.
  - intros tree v Hparse Hv. unfold eval_expr.
    rewrite Hparse. cbn [lift bind]. by rewrite Hv.
  - destruct (parse source) as [tree|e] eqn:Hparse;
      [|right; left; unfold eval_expr; rewrite Hparse; by eexists].
    destruct (_eval_node rt PLUGINS tree) as [v|exc] eqn:Hv.
    + left. exists v. unfold eval_expr. rewrite Hparse. cbn [lift bind].
      by rewrite Hv.
    + assert ((exists e, exc = Exc e) \/ forall e, exc <> Exc e)
        as [[e ->]|Hno] by (destruct exc; [left; by eexists|by right..]).
      * right. left. rewrite (Htree tree e eq_refl Hv). by eexists.
      * right. right.
        destruct (exception_is_from_plugin _ _ _ _ Hv Hno)
          as (name & f & vs & Hf & Hfvs).
        exists exc, name, f, vs.
        by rewrite (Hraised tree exc eq_refl Hv Hno).
  - intros Hwb. unfold eval_expr.
    destruct (parse source) as [tree|e]; cbn [lift bind];
      [|right; by eexists].
    destruct (_eval_node rt PLUGINS tree) as [v|exc] eqn:Hv.
    + left. by eexists.
    + destruct (well_behaved_raises _ _ _ _ Hwb Hv) as [e ->].
      right. by eexists.
Qed.

(** Against C10 as stated: with a plugin that raises [SystemExit],
    "quit()" is parsed and the pipeline raises neither a [ValueError] nor
    returns: the [SystemExit] goes through. *)
Lemma SystemExit_goes_through :
  PyParser.ast_parse "quit()" = Some (Ok (Call (Name "quit") [] []))
  /\ quit [] = Raise (BaseExc SystemExit "")
  /\ eval_expr bare_runtime {["quit" := quit]} PyParser.total "quit()"
     = Raise (BaseExc SystemExit "").
Proof. repeat split; vm_compute; reflexivity. Qed.

(** * Further properties *)

(** ** [load_plugins] *)

(** One round of the loop over the files of the directory. *)
Lemma load_plugins_cons filename executed files PLUGINS :
  load_plugins (Some ((filename, executed) :: files)) PLUGINS
  = if endswith ".py" filename then
      match loaded executed with
      | None | Some (Exc _) =>
          load_plugins (Some files) (registered executed PLUGINS)
      | Some (BaseExc c msg) => Raise (BaseExc c msg)
      | Some (Unprintable _ raised) => Raise raised
      end
    else load_plugins (Some files) PLUGINS.
Proof.
  assert (forall exc,
    foldl (fun acc '(filename, executed) =>
             P <- acc ;;
             if endswith ".py" filename then
               match loaded executed with
               | None | Some (Exc _) => Ok (registered executed P)
               | Some (BaseExc c msg) => Raise (BaseExc c msg)
               | Some (Unprintable _ raised) => Raise raised
               end
             else Ok P)
          (Raise exc) files = Raise exc) as Hraise.
  { intros exc. induction files as [|[fn ex] files IH]; simpl; [done|]. exact IH. }
  unfold load_plugins. simpl.
  destruct (endswith ".py" filename); [|done].
  destruct (loaded executed) as [[e|c msg|c raised]|]; try done; apply Hraise.
Qed.

Lemma register_module_cons attr obj attrs PLUGINS :
  register_module ((attr, obj) :: attrs) PLUGINS
  = if negb (String.prefix "_" attr) then
      match obj with
      | Callable f => register_module attrs (<[attr := f]> PLUGINS)
      | NotCallable => register_module attrs PLUGINS
      | Unreadable _ => PLUGINS
      end
    else register_module attrs PLUGINS.
Proof. reflexivity. Qed.

(** What a module registers is among its public callables. *)
Lemma register_module_lookup attrs PLUGINS name f :
  register_module attrs PLUGINS !! name = Some f ->
  PLUGINS !! name = Some f
  \/ ((name, Callable f) ∈ attrs /\ String.prefix "_" name = false).
Proof.
  revert PLUGINS. induction attrs as [|[attr obj] attrs IH]; intros PLUGINS H.
  - by left.
  - rewrite register_module_cons in H.
    assert (forall P, register_module attrs P !! name = Some f ->
              P !! name = Some f
              \/ ((name, Callable f) ∈ (attr, obj) :: attrs
                  /\ String.prefix "_" name = false)) as Hrest.
    { intros P HP. destruct (IH P HP) as [Hin | [Hin Hpub]]; [by left|].
      right. split; [by right | done]. }
    destruct (String.prefix "_" attr) eqn:Hattr; simpl in H; [by apply Hrest|].
    destruct obj as [g| |e]; [|by apply Hrest|by left].
    destruct (Hrest _ H) as [Hin | Hin]; [|by right].
    apply lookup_insert_Some in Hin as [[-> ->] | [_ Hin]]; [|by left].
    right. split; [by left | done].
Qed.

Lemma register_module_keeps attrs PLUGINS name :
  is_Some (PLUGINS !! name) -> is_Some (register_module attrs PLUGINS !! name).
Proof.
  revert PLUGINS. induction attrs as [|[attr obj] attrs IH]; intros PLUGINS H.
  - done.
  - rewrite register_module_cons.
    destruct (negb (String.prefix "_" attr)); [|by apply IH].
    destruct obj as [g| |e]; [|by apply IH|done].
    apply IH. rewrite lookup_insert. by case_decide.
Qed.

Lemma registered_lookup executed PLUGINS name f :
  registered executed PLUGINS !! name = Some f ->
  PLUGINS !! name = Some f
  \/ exists attrs,
       executed = Ok attrs
       /\ (name, Callable f) ∈ attrs /\ String.prefix "_" name = false.
Proof.
  destruct executed as [attrs|exc]; simpl; [|by left].
  intros H. apply register_module_lookup in H as [H | H]; [by left|].
  right. by exists attrs.
Qed.

Lemma registered_keeps executed PLUGINS name :
  is_Some (PLUGINS !! name) -> is_Some (registered executed PLUGINS !! name).
Proof.
  destruct executed as [attrs|exc]; simpl; [|done].
  apply register_module_keeps.
Qed.

(** X1: [load_plugins] registers nothing but the public callables of the
    [.py] files that execute: a callable found in the registry afterwards
    was there before, or is an attribute of such a file whose name does
    not start with an underscore. *)
Theorem load_plugins_registers_public_callables files PLUGINS PLUGINS' name f :
  load_plugins (Some files) PLUGINS = Ok PLUGINS' ->
  PLUGINS' !! name = Some f ->
  PLUGINS !! name = Some f
  \/ exists filename attrs,
       (filename, Ok attrs) ∈ files
       /\ endswith ".py" filename = true
       /\ (name, Callable f) ∈ attrs
       /\ String.prefix "_" name = false.
Proof.
  revert PLUGINS. induction files as [|[filename executed] files IH];
    intros PLUGINS Hload Hf.
  - injection Hload as <-. by left.
  - rewrite load_plugins_cons in Hload.
    assert (forall P,
              load_plugins (Some files) P = Ok PLUGINS' ->
              P !! name = Some f
              \/ exists filename' attrs,
                   (filename', Ok attrs) ∈ (filename, executed) :: files
                   /\ endswith ".py" filename' = true
                   /\ (name, Callable f) ∈ attrs
                   /\ String.prefix "_" name = false) as Hrest.
    { intros P HP. destruct (IH P HP Hf) as [H | (fn & attrs & Hin & H)]; [by left|].
      right. exists fn, attrs. split; [by right | done]. }
    destruct (endswith ".py" filename) eqn:Hpy; [|by apply Hrest].
    assert (load_plugins (Some files) (registered executed PLUGINS)
            = Ok PLUGINS') as Hload'
      by (destruct (loaded executed) as [[e|c msg|c raised]|]; done).
    destruct (Hrest _ Hload') as [H | H]; [|by right].
    apply registered_lookup in H as [H | (attrs & -> & Hin & Hpub)]; [by left|].
    right. exists filename, attrs. split; [by left | done].
Qed.

Lemma load_plugins_public_witness :
  load_plugins (Some [tools_py]) ∅ = Ok {["answer" := answer]}
  /\ ({["answer" := answer]} : gmap string callable) !! "answer" = Some answer
  /\ ((∅ : gmap string callable) !! "answer" = Some answer
      \/ exists filename attrs,
           ((filename, Ok attrs) : plugin_file) ∈ [tools_py]
           /\ endswith ".py" filename = true
           /\ (("answer", Callable answer) : string * attribute) ∈ attrs
           /\ String.prefix "_" "answer" = false).
Proof.
  assert (load_plugins (Some [tools_py]) ∅ = Ok {["answer" := answer]})
    as Hload by (vm_compute; reflexivity).
  split; [exact Hload|]. split; [reflexivity|].
  exact (load_plugins_registers_public_callables _ _ _ "answer" answer
           Hload eq_refl).
Defined.


(** X2: [load_plugins] never removes a name from the registry. *)
Theorem load_plugins_keeps_names plugin_dir PLUGINS PLUGINS' name :
  load_plugins plugin_dir PLUGINS = Ok PLUGINS' ->
  is_Some (PLUGINS !! name) ->
  is_Some (PLUGINS' !! name).
Proof.
  destruct plugin_dir as [files|]; [|by intros [= <-]].
  revert PLUGINS. induction files as [|[filename executed] files IH];
    intros PLUGINS Hload Hname.
  - by injection Hload as <-.
  - rewrite load_plugins_cons in Hload.
    destruct (endswith ".py" filename); [|by eapply IH].
    assert (load_plugins (Some files) (registered executed PLUGINS)
            = Ok PLUGINS') as Hload'
      by (destruct (loaded executed) as [[e|c msg|c raised]|]; done).
    eapply IH; [exact Hload'|]. by apply registered_keeps.
Qed.

Lemma load_plugins_keeps_names_witness :
  load_plugins (Some [tools_py]) {["quit" := quit]}
  = Ok (<["answer" := answer]> {["quit" := quit]})
  /\ is_Some (({["quit" := quit]} : gmap string callable) !! "quit")
  /\ is_Some ((<["answer" := answer]> {["quit" := quit]} : gmap string callable)
                !! "quit").
Proof.
  assert (load_plugins (Some [tools_py]) {["quit" := quit]}
          = Ok (<["answer" := answer]> {["quit" := quit]})) as Hload
    by (vm_compute; reflexivity).
  assert (is_Some (({["quit" := quit]} : gmap string callable) !! "quit"))
    as Hquit by (by eexists).
  split; [exact Hload|]. split; [exact Hquit|].
  exact (load_plugins_keeps_names _ _ _ "quit" Hload Hquit).
Defined.




(** ** [_eval_node] *)

(** X4: the registry matters only at the calls of names that are no
    built-in functions: two registries that agree on those names give
    every expression the same outcome. *)
Theorem plugins_matter_only_where_called rt PLUGINS PLUGINS' node :
  (forall name args keywords,
     visits node (Call (Name name) args keywords) ->
     SAFE_FUNCTIONS rt !! name = None ->
     PLUGINS !! name = PLUGINS' !! name) ->
  _eval_node rt PLUGINS node = _eval_node rt PLUGINS' node.
Proof.
  induction node as [n|l op r IHl IHr|op x IHx|func args keywords _ IHargs|id|class]
    using expr_ind; intros Hsame.
  - reflexivity.
  - rewrite !eval_BinOp, IHl, IHr; [done| |].
    + intros name args keywords Hsub. apply (Hsame name args keywords).
      by apply visits_right.
    + intros name args keywords Hsub. apply (Hsame name args keywords).
      by apply visits_left.
  - rewrite !eval_UnaryOp, IHx; [done|].
    intros name args keywords Hsub. apply (Hsame name args keywords).
    by apply visits_operand.
  - rewrite !eval_Call.
    rewrite (mapM_ext (_eval_node rt PLUGINS) (_eval_node rt PLUGINS') args).
    + destruct func as [| | | |id|]; try reflexivity. simpl.
      destruct (SAFE_FUNCTIONS rt !! id) eqn:Hid; [reflexivity|].
      rewrite (Hsame id args keywords); [reflexivity|apply visits_here|exact Hid].
    + apply Forall_forall. intros arg Harg.
      rewrite Forall_forall in IHargs. apply (IHargs arg Harg).
      intros name args' keywords' Hsub. apply (Hsame name args' keywords').
      by eapply visits_arg.
  - reflexivity.
  - reflexivity.
Qed.

Lemma plugins_matter_only_where_called_witness :
  _eval_node bare_runtime {["answer" := answer]}
    (BinOp (Call (Name "answer") [] []) Add (Call (Name "abs") [Num (Int (-1))] []))
  = _eval_node bare_runtime {["answer" := answer; "quit" := quit; "abs" := silent]}
      (BinOp (Call (Name "answer") [] []) Add (Call (Name "abs") [Num (Int (-1))] [])).
Proof.
  apply plugins_matter_only_where_called.
  intros name args keywords Hsub Hname.
  assert (name = "answer" \/ name = "abs") as [-> | ->].
  { inversion Hsub as [| ? ? ? ? Hl | ? ? ? ? Hr | |]; subst.
    - inversion Hl as [| | | | ? ? ? ? ? Harg]; subst; [by left|].
      by apply elem_of_nil in Harg.
    - inversion Hr as [| | | | ? ? ? ? ? Harg Harg']; subst; [by right|].
      apply list_elem_of_singleton in Harg as ->. inversion Harg'. }
  - reflexivity.
  - discriminate Hname.
Defined.

Lemma mapM_subseteq rt (PLUGINS PLUGINS' : gmap string callable) args vs :
  Forall (fun arg => forall v, _eval_node rt PLUGINS arg = Ok v ->
                               _eval_node rt PLUGINS' arg = Ok v) args ->
  mapM (_eval_node rt PLUGINS) args = Ok vs ->
  mapM (_eval_node rt PLUGINS') args = Ok vs.
Proof.
  intros Hargs. revert vs.
  induction Hargs as [|arg args Harg _ IH]; intros vs; simpl; [done|].
  intros H. apply bind_Ok in H as (v & Hv & H).
  apply bind_Ok in H as (vs' & Hvs & [= <-]).
  by rewrite (Harg _ Hv), (IH _ Hvs).
Qed.

(** X5: registering more callables keeps the value of every expression
    that has one. *)
Theorem more_plugins_keep_values rt PLUGINS PLUGINS' node v :
  PLUGINS ⊆ PLUGINS' ->
  _eval_node rt PLUGINS node = Ok v ->
  _eval_node rt PLUGINS' node = Ok v.
Proof.
  intros Hsub. revert v.
  induction node as [n|l op r IHl IHr|op x IHx|func args keywords _ IHargs|id|class]
    using expr_ind; intros v.
  - done.
  - rewrite !eval_BinOp. intros H.
    apply bind_Ok in H as (vl & Hl & H). apply bind_Ok in H as (vr & Hr & H).
    by rewrite (IHl _ Hl), (IHr _ Hr).
  - rewrite !eval_UnaryOp. intros H.
    apply bind_Ok in H as (vx & Hx & H). by rewrite (IHx _ Hx).
  - rewrite !eval_Call. intros H.
    apply bind_Ok in H as (vs & Hvs & H).
    rewrite (mapM_subseteq _ _ _ _ _ IHargs Hvs). cbn [bind].
    destruct (func_id func ≫= (SAFE_FUNCTIONS rt !!.)) as [f|]; [exact H|].
    destruct func as [| | | |id|]; try discriminate. simpl in *.
    destruct (PLUGINS !! id) as [f|] eqn:Hid; [|discriminate].
    by rewrite (lookup_weaken _ _ _ _ Hid Hsub).
  - done.
  - done.
Qed.

Lemma more_plugins_keep_values_witness :
  ({["answer" := answer]} : gmap string callable)
    ⊆ {["answer" := answer; "quit" := quit]}
  /\ _eval_node bare_runtime {["answer" := answer; "quit" := quit]}
       (BinOp (Call (Name "answer") [] []) Mult (Num (Int 2)))
     = Ok (VNum (Int 84)).
Proof.
  assert (({["answer" := answer]} : gmap string callable)
            ⊆ {["answer" := answer; "quit" := quit]}) as Hsub.
  { apply insert_mono, map_empty_subseteq. }
  split; [exact Hsub|].
  apply (more_plugins_keep_values bare_runtime _ _ _ _ Hsub). reflexivity.
Defined.

(** X6: integer arithmetic is exact. An expression built from integer
    literals with [+], [-], [*], unary minus, [%] by a nonzero integer and
    [**] with an exponent that is not negative evaluates to the integer it
    denotes, whatever the mathematical library and the plugins. *)
Theorem integer_arithmetic_is_exact rt PLUGINS node z :
  int_value node = Some z ->
  _eval_node rt PLUGINS node = Ok (VNum (Int z)).
Proof.
  revert z.
  induction node as [n|l op r IHl IHr|op x IHx|func args keywords _ _|id|class]
    using expr_ind; intros z; simpl int_value.
  - destruct n; [|discriminate..]. by intros [= ->].
  - destruct (int_value l) as [a|]; [|discriminate].
    destruct (int_value r) as [b|]; [|discriminate].
    rewrite eval_BinOp, (IHl a eq_refl), (IHr b eq_refl). cbn [bind mbind option_bind].
    destruct op; try discriminate; cbn [SAFE_OPERATORS].
    + by intros [= <-].
    + by intros [= <-].
    + by intros [= <-].
    + unfold operator.mod_, operator.binary, py.arith. simpl.
      destruct (b =? 0) eqn:Hb; [discriminate|]. intros [= <-].
      apply Z.eqb_neq in Hb. simpl. by rewrite Z.mod_eq.
    + unfold operator.pow, operator.binary, py.arith. simpl.
      destruct (b <? 0) eqn:Hb; [discriminate|]. intros [= <-].
      apply Z.ltb_ge in Hb. by rewrite (proj2 (Z.leb_le 0 b) Hb).
  - destruct op; try discriminate.
    destruct (int_value x) as [a|]; [|discriminate].
    rewrite eval_UnaryOp, (IHx a eq_refl). by intros [= <-].
  - discriminate.
  - discriminate.
  - discriminate.
Qed.

Lemma integer_arithmetic_witness :
  _eval_node bare_runtime ∅
    (BinOp (UnaryOp USub (BinOp (Num (Int 2)) Pow (Num (Int 100))))
           Mod (Num (Int 7)))
  = Ok (VNum (Int 5)).
Proof.
  apply integer_arithmetic_is_exact. vm_compute. reflexivity.
Defined.

Lemma mapM_app_Raise {E A B} (f : A -> outcome E B) pre x post ys e :
  mapM f pre = Ok ys -> f x = Raise e -> mapM f (pre ++ x :: post) = Raise e.
Proof.
  revert ys. induction pre as [|y pre IH]; intros ys Hpre Hx; simpl.
  - by rewrite Hx.
  - simpl in Hpre. apply bind_Ok in Hpre as (b & Hb & Hpre).
    apply bind_Ok in Hpre as (ys' & Hys' & _).
    by rewrite Hb, (IH _ Hys' Hx).
Qed.

(** X7: operands and arguments are evaluated from left to right and the
    first exception is the outcome of the node: the exception of the
    first failing argument of a call, whatever is called, the exception
    of the left operand, and that of the right operand when the left one
    has a value. Neither the function nor the operator is looked up
    before. *)
Theorem first_exception_is_the_outcome rt PLUGINS :
  (forall func pre arg post keywords vs e,
     mapM (_eval_node rt PLUGINS) pre = Ok vs ->
     _eval_node rt PLUGINS arg = Raise e ->
     _eval_node rt PLUGINS (Call func (pre ++ arg :: post) keywords) = Raise e)
  /\ (forall l op r e,
        _eval_node rt PLUGINS l = Raise e ->
        _eval_node rt PLUGINS (BinOp l op r) = Raise e)
  /\ (forall l op r vl e,
        _eval_node rt PLUGINS l = Ok vl ->
        _eval_node rt PLUGINS r = Raise e ->
        _eval_node rt PLUGINS (BinOp l op r) = Raise e)
  /\ (forall op x e,
        _eval_node rt PLUGINS x = Raise e ->
        _eval_node rt PLUGINS (UnaryOp op x) = Raise e).
Proof.
  split; [|split; [|split]].
  - intros func pre arg post keywords vs e Hpre Harg.
    by rewrite eval_Call, (mapM_app_Raise _ _ _ _ _ _ Hpre Harg).
  - intros l op r e Hl. by rewrite eval_BinOp, Hl.
  - intros l op r vl e Hl Hr. by rewrite eval_BinOp, Hl, Hr.
  - intros op x e Hx. by rewrite eval_UnaryOp, Hx.
Qed.

Lemma SFopp_involutive x : SFopp (SFopp x) = x.
Proof. destruct x as [s|s| |s m e]; simpl; by rewrite ?negb_involutive. Qed.

Lemma float_opp_involutive (f : float) : (- - f)%float = f.
Proof.
  rewrite <- (SF2Prim_Prim2SF (- - f)), <- (SF2Prim_Prim2SF f) at 1.
  by rewrite !opp_spec, SFopp_involutive, !SF2Prim_Prim2SF.
Qed.

(** X8: two unary minus signs cancel: on every expression that evaluates
    to a number, [- - x] evaluates to the same number. *)
Theorem double_minus_is_identity rt PLUGINS x n :
  _eval_node rt PLUGINS x = Ok (VNum n) ->
  _eval_node rt PLUGINS (UnaryOp USub (UnaryOp USub x)) = Ok (VNum n).
Proof.
  intros Hx. rewrite !eval_UnaryOp, Hx. cbn [bind SAFE_OPERATORS].
  destruct n as [z|f|re im]; simpl.
  - by rewrite Z.opp_involutive.
  - by rewrite float_opp_involutive.
  - by rewrite !float_opp_involutive.
Qed.

Lemma double_minus_witness :
  _eval_node bare_runtime ∅ (UnaryOp USub (UnaryOp USub (Name "pi")))
  = Ok (VNum (Float math.pi)).
Proof. apply double_minus_is_identity. reflexivity. Defined.

(** ** The built-in functions *)

Lemma is_nan_spec x :
  is_nan x = match Prim2SF x with S754_nan => true | _ => false end.
Proof.
  unfold is_nan. rewrite FloatAxioms.eqb_spec. unfold SFeqb, SFcompare.
  destruct (Prim2SF x) as [s|s| |s m e]; [done|by destruct s|done|].
  rewrite Z.compare_refl, Pos.compare_cont_refl. by destruct s.
Qed.

Lemma math_1_outcome f x :
  match math.math_1 f false x with
  | Ok r =>
      r = f x
      /\ (is_nan x = false -> is_nan r = false)
      /\ (is_finite x = true -> is_finite r = true)
  | Raise e => e = domain_error
  end.
Proof.
  unfold math.math_1, is_finite.
  destruct (is_nan (f x)) eqn:Hr, (is_nan x) eqn:Hx,
    (is_infinity (f x)) eqn:Hi, (is_infinity x) eqn:Hix; simpl;
    try reflexivity;
    (split; [reflexivity|]; split; intros H; try discriminate H;
     rewrite ?Hr, ?Hi; reflexivity).
Qed.

(** X9: on a float, a function of [math] returns a float or raises
    [ValueError("math domain error")], whatever the mathematical library
    computes: it returns no NaN unless the argument is one, and no
    infinity on a finite argument. *)
Theorem math_functions_return_no_nan rt name f x :
  name ∈ math_functions ->
  SAFE_FUNCTIONS rt !! name = Some f ->
  match f [VNum (Float x)] with
  | Ok v =>
      exists r,
        v = VNum (Float r)
        /\ (is_nan x = false -> is_nan r = false)
        /\ (is_finite x = true -> is_finite r = true)
  | Raise e => e = domain_error
  end.
Proof.
  intros Hname Hf.
  assert (exists g, f [VNum (Float x)]
                    = (r <- math.math_1 g false x ;; Ok (VNum (Float r))))
    as [g ->].
  { unfold math_functions in Hname.
    repeat (apply elem_of_cons in Hname as [-> | Hname]);
      [..|by apply elem_of_nil in Hname].
    - change (Some (math.sin rt) = Some f) in Hf. injection Hf as <-. by eexists.
    - change (Some (math.cos rt) = Some f) in Hf. injection Hf as <-. by eexists.
    - change (Some (math.tan rt) = Some f) in Hf. injection Hf as <-. by eexists.
    - change (Some math.sqrt = Some f) in Hf. injection Hf as <-. by eexists.
    - change (Some (math.log rt) = Some f) in Hf. injection Hf as <-. by eexists. }
  pose proof (math_1_outcome g x) as H.
  destruct (math.math_1 g false x) as [r|e]; simpl; [|exact H].
  exists r. split; [done|]. apply H.
Qed.

Lemma math_functions_witness :
  "sqrt" ∈ math_functions
  /\ SAFE_FUNCTIONS bare_runtime !! "sqrt" = Some math.sqrt
  /\ match math.sqrt [VNum (Float 4)] with
     | Ok v =>
         exists r,
           v = VNum (Float r)
           /\ (is_nan 4 = false -> is_nan r = false)
           /\ (is_finite 4 = true -> is_finite r = true)
     | Raise e => e = domain_error
     end.
Proof.
  assert ("sqrt" ∈ math_functions) as Hname
    by (apply (bool_decide_unpack _); vm_compute; exact I).
  assert (SAFE_FUNCTIONS bare_runtime !! "sqrt" = Some math.sqrt) as Hf
    by reflexivity.
  split; [exact Hname|]. split; [exact Hf|].
  exact (math_functions_return_no_nan bare_runtime "sqrt" math.sqrt 4 Hname Hf).
Defined.

Lemma sqrt_of_negative x :
  (x <? 0)%float = true ->
  is_nan x = false /\ is_nan (PrimFloat.sqrt x) = true.
Proof.
  rewrite ltb_spec, Prim2SF_zero, !is_nan_spec, sqrt_spec.
  by destruct (Prim2SF x) as [s|[]| |[] m e].
Qed.

Lemma log_of_nonpositive rt x :
  (x <=? 0)%float = true ->
  math.math_1 (math.m_log rt) false x = Raise domain_error.
Proof.
  rewrite leb_spec, Prim2SF_zero. intros H.
  assert (is_nan x = false) as Hnan.
  { rewrite is_nan_spec. by destruct (Prim2SF x). }
  assert ((0 <? x)%float = false) as Hpos.
  { rewrite ltb_spec, Prim2SF_zero.
    by destruct (Prim2SF x) as [s|[]| |[] m e]. }
  unfold math.math_1, math.m_log. rewrite Hpos, Hnan.
  destruct (is_finite x) eqn:Hfin; [|reflexivity].
  by destruct (x =? 0)%float.
Qed.

(** X10: the square root of a negative float and the logarithm of a float
    or an integer that is not positive are refused with
    [ValueError("math domain error")], whatever the mathematical library
    computes: no NaN, no infinity and no complex number is returned. *)
Theorem sqrt_and_log_refuse_their_domain_errors rt PLUGINS arg keywords :
  (forall x,
     _eval_node rt PLUGINS arg = Ok (VNum (Float x)) ->
     (x <? 0)%float = true ->
     _eval_node rt PLUGINS (Call (Name "sqrt") [arg] keywords)
     = Raise (Exc domain_error))
  /\ (forall x,
        _eval_node rt PLUGINS arg = Ok (VNum (Float x)) ->
        (x <=? 0)%float = true ->
        _eval_node rt PLUGINS (Call (Name "log") [arg] keywords)
        = Raise (Exc domain_error))
  /\ (forall z,
        _eval_node rt PLUGINS arg = Ok (VNum (Int z)) ->
        z <= 0 ->
        _eval_node rt PLUGINS (Call (Name "log") [arg] keywords)
        = Raise (Exc domain_error)).
Proof.
  split; [|split].
  - intros x Harg Hneg.
    rewrite (eval_Call_Name _ _ _ _ _ [VNum (Float x)]) by (simpl; by rewrite Harg).
    change (SAFE_FUNCTIONS rt !! "sqrt") with (Some math.sqrt).
    destruct (sqrt_of_negative x Hneg) as [Hx Hr].
    unfold math.sqrt, math.real_function, math.one_argument, math.as_double.
    cbn [bind]. unfold math.math_1. by rewrite Hr, Hx.
  - intros x Harg Hle.
    rewrite (eval_Call_Name _ _ _ _ _ [VNum (Float x)]) by (simpl; by rewrite Harg).
    change (SAFE_FUNCTIONS rt !! "log") with (Some (math.log rt)).
    unfold math.log, math.loghelper, math.as_double. cbn [bind].
    by rewrite (log_of_nonpositive rt x Hle).
  - intros z Harg Hle.
    rewrite (eval_Call_Name _ _ _ _ _ [VNum (Int z)]) by (simpl; by rewrite Harg).
    change (SAFE_FUNCTIONS rt !! "log") with (Some (math.log rt)).
    unfold math.log, math.loghelper.
    by rewrite (proj2 (Z.leb_le z 0) Hle).
Qed.

Lemma SFabs_not_negative x : SFltb (SFabs x) SFzero = false.
Proof. by destruct x as [s|s| |s m e]. Qed.

Lemma SFabs_cases x : SFabs x = x \/ SFabs x = SFopp x.
Proof. destruct x as [[]|[]| |[] m e]; simpl; auto. Qed.

Lemma float_abs_cases x : PrimFloat.abs x = x \/ PrimFloat.abs x = (- x)%float.
Proof.
  destruct (SFabs_cases (Prim2SF x)) as [H|H]; [left|right];
    apply Prim2SF_inj; by rewrite ?opp_spec, abs_spec.
Qed.

(** X11: [abs] of an integer or of a float is the number or its opposite,
    of the same type, and it is never negative. *)
Theorem abs_is_never_negative rt PLUGINS arg keywords :
  (forall z,
     _eval_node rt PLUGINS arg = Ok (VNum (Int z)) ->
     exists a,
       _eval_node rt PLUGINS (Call (Name "abs") [arg] keywords)
       = Ok (VNum (Int a))
       /\ 0 <= a /\ (a = z \/ a = - z))
  /\ (forall x,
        _eval_node rt PLUGINS arg = Ok (VNum (Float x)) ->
        exists a,
          _eval_node rt PLUGINS (Call (Name "abs") [arg] keywords)
          = Ok (VNum (Float a))
          /\ (a <? 0)%float = false /\ (a = x \/ a = (- x)%float)).
Proof.
  split.
  - intros z Harg. exists (Z.abs z).
    rewrite (eval_Call_Name _ _ _ _ _ [VNum (Int z)]) by (simpl; by rewrite Harg).
    split; [reflexivity|]. lia.
  - intros x Harg. exists (PrimFloat.abs x).
    rewrite (eval_Call_Name _ _ _ _ _ [VNum (Float x)]) by (simpl; by rewrite Harg).
    split; [reflexivity|]. split; [|apply float_abs_cases].
    rewrite ltb_spec, abs_spec, Prim2SF_zero. apply SFabs_not_negative.
Qed.

(** ** [main] *)

Section MainFacts.
Context (rt : Runtime) (parse : string -> outcome error expr)
        (str : value -> outcome error string).

Lemma well_behaved_empty : well_behaved ∅.
Proof. intros name f vs H. by rewrite lookup_empty in H. Qed.

(** With well-behaved plugins [eval_expr] returns a number or raises a
    [ValueError]. *)
Lemma eval_expr_well_behaved PLUGINS source :
  well_behaved PLUGINS ->
  (exists n, eval_expr rt PLUGINS parse source = Ok (VNum n))
  \/ (exists msg,
        eval_expr rt PLUGINS parse source
        = Raise (Exc (Error ValueError ("Invalid expression: " ++ msg)))).
Proof.
  intros Hwb. unfold eval_expr.
  destruct (parse source) as [tree|e]; cbn [lift bind]; [|right; by eexists].
  destruct (_eval_node rt PLUGINS tree) as [v|exc] eqn:Hv.
  - left. apply (value_is_number _ _ _ _ Hwb) in Hv.
    destruct v; [by eexists | discriminate].
  - destruct (well_behaved_raises _ _ _ _ Hwb Hv) as [e ->].
    right. by eexists.
Qed.

(** Without plugins each evaluation is reported in one line. *)
Lemma report_without_plugins source :
  report str (eval_expr rt ∅ parse source)
  = ([Printed (printed_line str (eval_expr rt ∅ parse source))], None).
Proof.
  destruct (eval_expr_well_behaved ∅ source well_behaved_empty)
    as [[n ->]|[msg ->]]; simpl; [|done].
  by destruct (str (VNum n)).
Qed.

(** A plugin directory without code registers and prints nothing. *)
Lemma load_no_plugin_code plugin_dir :
  no_plugin_code plugin_dir ->
  load_plugins plugin_dir ∅ = Ok ∅
  /\ load_plugins_prints (default [] plugin_dir) = [].
Proof.
  intros Hdir. destruct plugin_dir as [files|]; [|done].
  specialize (Hdir files eq_refl).
  change (default [] (Some files)) with files.
  induction Hdir as [|[filename executed] files Hfile _ [IHload IHprints]];
    [done|].
  cbn [fst] in Hfile. split.
  - rewrite load_plugins_cons, Hfile. exact IHload.
  - cbn [load_plugins_prints]. rewrite Hfile. exact IHprints.
Qed.

Lemma repl_returns PLUGINS fuel stdin out :
  repl rt parse str PLUGINS fuel stdin = (out, Returned) ->
  exists pre line post,
    stdin = (pre ++ line :: post)%list
    /\ no_exit pre
    /\ is_exit line = true
    /\ forall post',
         repl rt parse str PLUGINS fuel (pre ++ line :: post')%list
         = (out, Returned).
Proof.
  revert stdin out. induction fuel as [|fuel IH]; intros stdin out; simpl.
  - discriminate.
  - destruct stdin as [|expr stdin].
    + destruct (repl rt parse str PLUGINS fuel []) as [out' e] eqn:Hrest.
      intros [= <- ->].
      destruct (IH _ _ Hrest) as ([|] & line & post & Heq & _); discriminate.
    + destruct (is_exit expr) eqn:Hexit.
      * intros [= <-]. exists [], expr, stdin.
        split; [done|]. split; [constructor|]. split; [done|].
        intros post'. simpl. by rewrite Hexit.
      * destruct (report str (eval_expr rt PLUGINS parse expr))
          as [printed [exc|]] eqn:Hreport; [discriminate|].
        destruct (repl rt parse str PLUGINS fuel stdin) as [out' e] eqn:Hrest.
        intros [= <- ->].
        destruct (IH _ _ Hrest) as (pre & line & post & -> & Hpre & Hline & Hpost).
        exists (expr :: pre), line, post.
        split; [done|]. split; [by constructor|]. split; [done|].
        intros post'. simpl. by rewrite Hexit, Hreport, Hpost.
Qed.

Lemma repl_transcript lines :
  no_exit lines ->
  (forall fuel line post,
     (length lines < fuel)%nat ->
     is_exit line = true ->
     repl rt parse str ∅ fuel (lines ++ line :: post)%list
     = ((transcript rt parse str lines ++ [Prompted ">>> "])%list, Returned))
  /\ (forall n,
        repl rt parse str ∅ (length lines + n) lines
        = ((transcript rt parse str lines ++ at_end_of_input n)%list, Running)).
Proof.
  intros Hlines.
  induction Hlines as [|expr lines Hexpr _ [IHexit IHeof]].
  - split.
    + intros [|fuel] line post Hfuel Hline; [lia|]. simpl. by rewrite Hline.
    + intros n. simpl. induction n as [|n IH]; [done|].
      simpl. by rewrite IH.
  - pose proof (report_without_plugins expr) as Hreport.
    split.
    + intros [|fuel] line post Hfuel Hline; [simpl in Hfuel; lia|].
      simpl in Hfuel. simpl. rewrite Hexpr, Hreport.
      rewrite (IHexit fuel line post) by (try done; lia). done.
    + intros n. simpl. by rewrite Hexpr, Hreport, IHeof.
Qed.

Lemma main_interactive PLUGINS plugin_dir expression fuel stdin :
  interactive expression ->
  load_plugins plugin_dir ∅ = Ok PLUGINS ->
  main rt parse str plugin_dir expression fuel stdin
  = ((Printed <$> load_plugins_prints (default [] plugin_dir))
       ++ banner :: (repl rt parse str PLUGINS fuel stdin).1,
     (repl rt parse str PLUGINS fuel stdin).2)%list.
Proof.
  intros Hmode Hload. unfold main. rewrite Hload.
  destruct (repl rt parse str PLUGINS fuel stdin) as [out e].
  by destruct Hmode as [-> | ->].
Qed.

End MainFacts.

(** X12: in interactive mode [main] returns only once it has read a line
    that is "exit" or "quit" in any case; the lines after it are not
    read. In particular the end of the input does not end the program. *)
Theorem main_returns_only_on_exit rt parse str plugin_dir expression
    fuel stdin out :
  interactive expression ->
  main rt parse str plugin_dir expression fuel stdin = (out, Returned) ->
  exists pre line post,
    stdin = (pre ++ line :: post)%list
    /\ no_exit pre
    /\ is_exit line = true
    /\ forall post',
         main rt parse str plugin_dir expression fuel (pre ++ line :: post')%list
         = (out, Returned).
Proof.
  intros Hmode Hmain.
  destruct (load_plugins plugin_dir ∅) as [PLUGINS|exc] eqn:Hload;
    [|unfold main in Hmain; by rewrite Hload in Hmain].
  rewrite (main_interactive _ _ _ PLUGINS _ _ _ _ Hmode Hload) in Hmain.
  destruct (repl rt parse str PLUGINS fuel stdin) as [out' e] eqn:Hrepl.
  injection Hmain as <- ->.
  destruct (repl_returns _ _ _ _ _ _ _ Hrepl)
    as (pre & line & post & Hstdin & Hpre & Hline & Hpost).
  exists pre, line, post. split; [done|]. split; [done|]. split; [done|].
  intros post'.
  by rewrite (main_interactive _ _ _ PLUGINS _ _ _ _ Hmode Hload), Hpost.
Qed.

Lemma main_returns_only_on_exit_witness :
  interactive None
  /\ main bare_runtime PyParser.total str_of_int None None 5
       ["1 + 1"; "Quit"; "2 + 2"]
     = ([banner; Prompted ">>> "; Printed "2"; Prompted ">>> "], Returned)
  /\ exists pre line post,
       ["1 + 1"; "Quit"; "2 + 2"] = (pre ++ line :: post)%list
       /\ no_exit pre
       /\ is_exit line = true
       /\ forall post',
            main bare_runtime PyParser.total str_of_int None None 5
              (pre ++ line :: post')%list
            = ([banner; Prompted ">>> "; Printed "2"; Prompted ">>> "], Returned).
Proof.
  assert (interactive None) as Hmode by (by left).
  assert (main bare_runtime PyParser.total str_of_int None None 5
            ["1 + 1"; "Quit"; "2 + 2"]
          = ([banner; Prompted ">>> "; Printed "2"; Prompted ">>> "], Returned))
    as Hmain by (vm_compute; reflexivity).
  split; [exact Hmode|]. split; [exact Hmain|].
  exact (main_returns_only_on_exit _ _ _ _ _ _ _ _ Hmode Hmain).
Defined.

(** X13: in interactive mode without plugin code [main] answers line by
    line: after the banner it writes, for each line read, the prompt and
    one line, the result or the error. It returns at the first line that
    is "exit" or "quit", after one more prompt. At the end of the input
    it does not stop: each further round writes the prompt and the
    [EOFError]. *)
Theorem interactive_mode_answers_line_by_line rt parse str plugin_dir
    expression lines :
  interactive expression ->
  no_plugin_code plugin_dir ->
  no_exit lines ->
  (forall fuel line post,
     (length lines < fuel)%nat ->
     is_exit line = true ->
     main rt parse str plugin_dir expression fuel (lines ++ line :: post)%list
     = ((banner :: transcript rt parse str lines ++ [Prompted ">>> "])%list,
        Returned))
  /\ (forall n,
        main rt parse str plugin_dir expression (length lines + n) lines
        = ((banner :: transcript rt parse str lines ++ at_end_of_input n)%list,
           Running)).
Proof.
  intros Hmode Hdir Hlines.
  destruct (load_no_plugin_code plugin_dir Hdir) as [Hload Hprints].
  destruct (repl_transcript rt parse str lines Hlines) as [Hexit Heof].
  split.
  - intros fuel line post Hfuel Hline.
    by rewrite (main_interactive _ _ _ ∅ _ _ _ _ Hmode Hload), Hprints,
         (Hexit fuel line post Hfuel Hline).
  - intros n.
    by rewrite (main_interactive _ _ _ ∅ _ _ _ _ Hmode Hload), Hprints, (Heof n).
Qed.

Lemma interactive_mode_witness :
  interactive (Some "")
  /\ no_plugin_code (Some [("README.md", Ok [])])
  /\ no_exit ["6 * 7"; "1 / 0"; "10 ** 4300"]
  /\ main bare_runtime PyParser.total str_of_int
       (Some [("README.md", Ok [])]) (Some "")
       (length ["6 * 7"; "1 / 0"; "10 ** 4300"] + 2)
       ["6 * 7"; "1 / 0"; "10 ** 4300"]
     = ([banner;
         Prompted ">>> "; Printed "42";
         Prompted ">>> "; Printed "Error: Invalid expression: division by zero";
         Prompted ">>> ";
         Printed "Error: Exceeds the limit (4300 digits) for integer string conversion; use sys.set_int_max_str_digits() to increase the limit";
         Prompted ">>> "; Printed "Error: EOF when reading a line";
         Prompted ">>> "; Printed "Error: EOF when reading a line"],
        Running).
Proof.
  assert (interactive (Some "")) as Hmode by (by right).
  assert (no_plugin_code (Some [("README.md", Ok [])])) as Hdir.
  { intros files [= <-]. by repeat constructor. }
  assert (no_exit ["6 * 7"; "1 / 0"; "10 ** 4300"]) as Hlines
    by (repeat constructor).
  split; [exact Hmode|]. split; [exact Hdir|]. split; [exact Hlines|].
  etransitivity;
    [exact (proj2 (interactive_mode_answers_line_by_line
                     bare_runtime PyParser.total str_of_int _ _ _
                     Hmode Hdir Hlines) 2%nat)|].
  vm_compute. reflexivity.
Defined.

(** X14: with an expression on the command line and no plugin code
    [main] reads no input, writes one line and returns: the line is the
    text of the number the expression evaluates to, or "Error: " and the
    message of the conversion to text when that raises, or
    "Error: Invalid expression: " and the message of the failure of the
    evaluation. *)
Theorem single_expression_prints_one_line rt parse str plugin_dir
    c s fuel stdin :
  no_plugin_code plugin_dir ->
  exists line,
    main rt parse str plugin_dir (Some (String c s)) fuel stdin
    = ([Printed line], Returned)
    /\ ((exists n text,
           eval_expr rt ∅ parse (String c s) = Ok (VNum n)
           /\ str (VNum n) = Ok text
           /\ line = text)
        \/ (exists n e,
              eval_expr rt ∅ parse (String c s) = Ok (VNum n)
              /\ str (VNum n) = Raise e
              /\ line = "Error: " ++ err_msg e)
        \/ (exists msg,
              eval_expr rt ∅ parse (String c s)
              = Raise (Exc (Error ValueError ("Invalid expression: " ++ msg)))
              /\ line = "Error: Invalid expression: " ++ msg)).
Proof.
  intros Hdir.
  destruct (load_no_plugin_code plugin_dir Hdir) as [Hload Hprints].
  unfold main. rewrite Hload, Hprints.
  destruct (eval_expr_well_behaved rt parse ∅ (String c s) well_behaved_empty)
    as [[n Hn]|[msg Hmsg]].
  - rewrite Hn. simpl. destruct (str (VNum n)) as [text|e] eqn:Hstr.
    + exists text. split; [done|]. left. by exists n, text.
    + exists ("Error: " ++ err_msg e). split; [done|]. right. left.
      by exists n, e.
  - exists ("Error: Invalid expression: " ++ msg). rewrite Hmsg.
    split; [done|]. right. right. by exists msg.
Qed.

Lemma single_expression_witness :
  no_plugin_code None
  /\ exists line,
       main bare_runtime PyParser.total str_of_int None (Some "10 ** 5000") 0 []
       = ([Printed line], Returned)
       /\ ((exists n text,
              eval_expr bare_runtime ∅ PyParser.total "10 ** 5000" = Ok (VNum n)
              /\ str_of_int (VNum n) = Ok text
              /\ line = text)
           \/ (exists n e,
                 eval_expr bare_runtime ∅ PyParser.total "10 ** 5000"
                 = Ok (VNum n)
                 /\ str_of_int (VNum n) = Raise e
                 /\ line = "Error: " ++ err_msg e)
           \/ (exists msg,
                 eval_expr bare_runtime ∅ PyParser.total "10 ** 5000"
                 = Raise (Exc (Error ValueError ("Invalid expression: " ++ msg)))
                 /\ line = "Error: Invalid expression: " ++ msg)).
Proof.
  assert (no_plugin_code None) as Hdir by (intros files [=]).
  split; [exact Hdir|].
  exact (single_expression_prints_one_line bare_runtime PyParser.total
           str_of_int None "1" "0 ** 5000" 0 [] Hdir).
Defined.

(** ** Keyword arguments, and the registry as [load_plugins] leaves it *)

(** X15: keyword arguments are dropped: an expression has the outcome of
    the expression without the keyword arguments of its calls, which are
    neither evaluated nor passed on. *)
Theorem keyword_arguments_are_dropped rt PLUGINS node :
  _eval_node rt PLUGINS (without_keywords node) = _eval_node rt PLUGINS node.
Proof.
  induction node as [n|l op r IHl IHr|op x IHx|func args keywords _ IHargs|id|class]
    using expr_ind; simpl without_keywords.
  - reflexivity.
  - by rewrite !eval_BinOp, IHl, IHr.
  - by rewrite !eval_UnaryOp, IHx.
  - rewrite !eval_Call. f_equal.
    induction IHargs as [|arg args Harg _ IH]; simpl; [done|].
    by rewrite Harg, IH.
  - reflexivity.
  - reflexivity.
Qed.

Lemma register_module_union attrs (M PLUGINS : gmap string callable) :
  register_module attrs (M ∪ PLUGINS) = register_module attrs M ∪ PLUGINS.
Proof.
  revert M. induction attrs as [|[attr obj] attrs IH]; intros M; [done|].
  rewrite !register_module_cons.
  destruct (negb (String.prefix "_" attr)); [|apply IH].
  destruct obj as [f| |e]; [|apply IH|done].
  by rewrite <- IH, insert_union_l.
Qed.

Lemma registered_union executed (M PLUGINS : gmap string callable) :
  registered executed (M ∪ PLUGINS) = registered executed M ∪ PLUGINS.
Proof.
  destruct executed as [attrs|exc]; simpl; [|done].
  apply register_module_union.
Qed.

Lemma load_plugins_union files (M PLUGINS : gmap string callable) :
  load_plugins (Some files) (M ∪ PLUGINS)
  = (added <- load_plugins (Some files) M ;; Ok (added ∪ PLUGINS)).
Proof.
  revert M. induction files as [|[filename executed] files IH]; intros M; [done|].
  rewrite !load_plugins_cons.
  destruct (endswith ".py" filename); [|apply IH].
  destruct (loaded executed) as [[e|c msg|c raised]|];
    [|done..|]; by rewrite registered_union, IH.
Qed.

(** X16: what [load_plugins] registers does not depend on what is
    registered: the registry after the call is what the call adds to an
    empty registry, laid over the registry before. Hence loading the same
    directory again changes nothing. *)
Theorem load_plugins_is_idempotent plugin_dir :
  (forall PLUGINS,
     load_plugins plugin_dir PLUGINS
     = (added <- load_plugins plugin_dir ∅ ;; Ok (added ∪ PLUGINS)))
  /\ (forall PLUGINS PLUGINS',
        load_plugins plugin_dir PLUGINS = Ok PLUGINS' ->
        load_plugins plugin_dir PLUGINS' = Ok PLUGINS').
Proof.
  assert (forall PLUGINS,
     load_plugins plugin_dir PLUGINS
     = (added <- load_plugins plugin_dir ∅ ;; Ok (added ∪ PLUGINS))) as Hadd.
  { intros PLUGINS. destruct plugin_dir as [files|].
    - rewrite <- (left_id_L ∅ (∪) PLUGINS) at 1. apply load_plugins_union.
    - simpl. by rewrite (left_id_L ∅ (∪)). }
  split; [exact Hadd|].
  intros PLUGINS PLUGINS'. rewrite (Hadd PLUGINS), (Hadd PLUGINS').
  destruct (load_plugins plugin_dir ∅) as [added|exc]; simpl; [|done].
  intros [= <-]. by rewrite (assoc_L (∪)), (idemp_L (∪)).
Qed.

(** ** What ends [main] *)

Lemma load_plugins_raises files PLUGINS exc :
  load_plugins (Some files) PLUGINS = Raise exc ->
  exists filename executed raised,
    ((filename, executed) : plugin_file) ∈ files
    /\ endswith ".py" filename = true
    /\ loaded executed = Some raised
    /\ (forall e, raised <> Exc e)
    /\ exc = escaping raised.
Proof.
  revert PLUGINS. induction files as [|[filename executed] files IH];
    intros PLUGINS H; [discriminate|].
  rewrite load_plugins_cons in H.
  assert (forall P, load_plugins (Some files) P = Raise exc ->
            exists filename' executed' raised,
              ((filename', executed') : plugin_file)
                ∈ (filename, executed) :: files
              /\ endswith ".py" filename' = true
              /\ loaded executed' = Some raised
              /\ (forall e, raised <> Exc e)
              /\ exc = escaping raised) as Hrest.
  { intros P HP. destruct (IH P HP) as (fn & ex & raised & Hin & Hrest).
    exists fn, ex, raised. split; [by right|done]. }
  destruct (endswith ".py" filename) eqn:Hpy; [|by eapply Hrest].
  destruct (loaded executed) as [[e|c msg|c raised]|] eqn:Hloaded;
    [by eapply Hrest| | |by eapply Hrest].
  - injection H as <-. exists filename, executed, (BaseExc c msg).
    split; [by left|]. done.
  - injection H as <-. exists filename, executed, (Unprintable c raised).
    split; [by left|]. done.
Qed.

Lemma load_plugins_origin files PLUGINS PLUGINS' name f :
  load_plugins (Some files) PLUGINS = Ok PLUGINS' ->
  PLUGINS' !! name = Some f ->
  PLUGINS !! name = Some f
  \/ exists filename attrs,
       ((filename, Ok attrs) : plugin_file) ∈ files
       /\ (name, Callable f) ∈ attrs.
Proof.
  revert PLUGINS. induction files as [|[filename executed] files IH];
    intros PLUGINS Hload Hname.
  - injection Hload as <-. by left.
  - rewrite load_plugins_cons in Hload.
    assert (forall P, load_plugins (Some files) P = Ok PLUGINS' ->
              P !! name = Some f
              \/ exists filename' attrs,
                   ((filename', Ok attrs) : plugin_file)
                     ∈ (filename, executed) :: files
                   /\ (name, Callable f) ∈ attrs) as Hrest.
    { intros P HP. destruct (IH P HP Hname) as [H | (fn & attrs & Hin & Hf)];
        [by left|].
      right. exists fn, attrs. split; [by right|done]. }
    destruct (endswith ".py" filename); [|by apply Hrest].
    assert (load_plugins (Some files) (registered executed PLUGINS)
            = Ok PLUGINS') as Hload'
      by (destruct (loaded executed) as [[e|c msg|c raised]|]; done).
    destruct (Hrest _ Hload') as [H | H]; [|by right].
    apply registered_lookup in H as [H | (attrs & -> & Hin & _)]; [by left|].
    right. exists filename, attrs. split; [by left|done].
Qed.

(** What [eval_expr] raises besides its [ValueError] comes out of a
    plugin. *)
Lemma eval_expr_raises rt parse PLUGINS source exc :
  eval_expr rt PLUGINS parse source = Raise exc ->
  (exists msg, exc = Exc (Error ValueError ("Invalid expression: " ++ msg)))
  \/ (exists name f vs raised,
        PLUGINS !! name = Some f
        /\ f vs = Raise raised
        /\ (forall e, raised <> Exc e)
        /\ exc = escaping raised).
Proof.
  unfold eval_expr.
  destruct (parse source) as [tree|e]; cbn [lift bind];
    [|intros [= <-]; left; by eexists].
  destruct (_eval_node rt PLUGINS tree) as [v|raised] eqn:Hv; [discriminate|].
  assert ((exists e, raised = Exc e) \/ forall e, raised <> Exc e)
    as [[e ->]|Hno] by (destruct raised; [left; by eexists|by right..]).
  - intros [= <-]. left. by eexists.
  - destruct (exception_is_from_plugin _ _ _ _ Hv Hno)
      as (name & f & vs & Hf & Hfvs).
    intros H. right. exists name, f, vs, raised.
    split; [done|]. split; [done|]. split; [done|].
    destruct raised as [e|c msg|c raised]; [by destruct (Hno e)|..];
      by injection H.
Qed.

Lemma report_uncaught rt parse str PLUGINS source printed exc :
  report str (eval_expr rt PLUGINS parse source) = (printed, Some exc) ->
  exists name f vs raised,
    PLUGINS !! name = Some f
    /\ f vs = Raise raised
    /\ (forall e, raised <> Exc e)
    /\ (forall e, escaping raised <> Exc e)
    /\ exc = escaping (escaping raised).
Proof.
  destruct (eval_expr rt PLUGINS parse source) as [v|exc'] eqn:Hv; simpl.
  { by destruct (str v). }
  intros Hreport.
  assert ((forall e, exc' <> Exc e) /\ exc = escaping exc') as [Hno ->].
  { destruct exc' as [e|c msg|c raised]; [discriminate|..];
      by injection Hreport as _ <-. }
  apply eval_expr_raises in Hv
    as [[msg ->]|(name & f & vs & raised & Hf & Hfvs & Hraised & ->)].
  - by destruct (Hno (Error ValueError ("Invalid expression: " ++ msg))).
  - by exists name, f, vs, raised.
Qed.

Lemma repl_uncaught rt parse str PLUGINS fuel stdin out exc :
  repl rt parse str PLUGINS fuel stdin = (out, Uncaught exc) ->
  exists name f vs raised,
    PLUGINS !! name = Some f
    /\ f vs = Raise raised
    /\ (forall e, raised <> Exc e)
    /\ (forall e, escaping raised <> Exc e)
    /\ exc = escaping (escaping raised).
Proof.
  revert stdin out. induction fuel as [|fuel IH]; intros stdin out; simpl.
  - discriminate.
  - destruct stdin as [|expr stdin].
    + destruct (repl rt parse str PLUGINS fuel []) as [out' e] eqn:Hrest.
      intros [= <- ->]. by eapply IH.
    + destruct (is_exit expr); [discriminate|].
      destruct (report str (eval_expr rt PLUGINS parse expr))
        as [printed [exc'|]] eqn:Hreport.
      * intros [= <- <-]. by eapply report_uncaught.
      * destruct (repl rt parse str PLUGINS fuel stdin) as [out' e] eqn:Hrest.
        intros [= <- ->]. by eapply IH.
Qed.

(** X17: from the return of [parse_args] on, an exception leaves [main]
    only out of plugin code: a [.py] file of the plugin directory raised,
    while it was loaded, or one of its callables raised, when an
    expression called it, something that is no printable instance of
    [Exception]. It is an exception that does not derive from [Exception]
    (such as [SystemExit]), which leaves [main] as it is, or an instance
    whose [__str__] raises, and then what [__str__] raises leaves the
    handler that formats it. Without a plugin directory nothing leaves
    [main]. *)
Theorem main_dies_only_of_a_plugin rt parse str plugin_dir expression
    fuel stdin out exc :
  main rt parse str plugin_dir expression fuel stdin = (out, Uncaught exc) ->
  exists files raised,
    plugin_dir = Some files
    /\ (forall e, raised <> Exc e)
    /\ ((exists filename executed,
           ((filename, executed) : plugin_file) ∈ files
           /\ endswith ".py" filename = true
           /\ loaded executed = Some raised
           /\ exc = escaping raised)
        \/ (exists filename attrs name f vs,
              ((filename, Ok attrs) : plugin_file) ∈ files
              /\ (name, Callable f) ∈ attrs
              /\ f vs = Raise raised
              /\ (forall e, escaping raised <> Exc e)
              /\ exc = escaping (escaping raised))).
Proof.
  unfold main. intros Hmain.
  destruct (load_plugins plugin_dir ∅) as [PLUGINS|exc'] eqn:Hload.
  - assert (exists name f vs raised,
              PLUGINS !! name = Some f
              /\ f vs = Raise raised
              /\ (forall e, raised <> Exc e)
              /\ (forall e, escaping raised <> Exc e)
              /\ exc = escaping (escaping raised))
      as (name & f & vs & raised & Hf & Hfvs & Hraised & Hescaping & ->).
    { destruct expression as [[|c s]|].
      - destruct (repl rt parse str PLUGINS fuel stdin) as [out' e] eqn:Hrepl.
        injection Hmain as <- ->. by eapply repl_uncaught.
      - destruct (report str (eval_expr rt PLUGINS parse (String c s)))
          as [printed [exc'|]] eqn:Hreport; [|discriminate].
        injection Hmain as <- <-. by eapply report_uncaught.
      - destruct (repl rt parse str PLUGINS fuel stdin) as [out' e] eqn:Hrepl.
        injection Hmain as <- ->. by eapply repl_uncaught. }
    destruct plugin_dir as [files|];
      [|injection Hload as <-; by rewrite lookup_empty in Hf].
    destruct (load_plugins_origin _ _ _ _ _ Hload Hf)
      as [Hempty | (filename & attrs & Hin & Hattr)];
      [by rewrite lookup_empty in Hempty|].
    exists files, raised. split; [done|]. split; [done|]. right.
    by exists filename, attrs, name, f, vs.
  - injection Hmain as <- <-.
    destruct plugin_dir as [files|]; [|discriminate].
    destruct (load_plugins_raises _ _ _ Hload)
      as (filename & executed & raised & Hin & Hpy & Hloaded & Hraised & ->).
    exists files, raised. split; [done|]. split; [done|]. left.
    by exists filename, executed.
Qed.

Lemma main_dies_witness :
  main bare_runtime PyParser.total str_of_int
    (Some [("exit.py", Ok [("leave", Callable quit)])]) (Some "1 + leave()") 0 []
  = ([], Uncaught (BaseExc SystemExit ""))
  /\ exists files raised,
       Some [(("exit.py", Ok [("leave", Callable quit)]) : plugin_file)]
       = Some files
       /\ (forall e, raised <> Exc e)
       /\ ((exists filename executed,
              ((filename, executed) : plugin_file) ∈ files
              /\ endswith ".py" filename = true
              /\ loaded executed = Some raised
              /\ BaseExc SystemExit "" = escaping raised)
           \/ (exists filename attrs name f vs,
                 ((filename, Ok attrs) : plugin_file) ∈ files
                 /\ (name, Callable f) ∈ attrs
                 /\ f vs = Raise raised
                 /\ (forall e, escaping raised <> Exc e)
                 /\ BaseExc SystemExit "" = escaping (escaping raised))).
Proof.
  assert (main bare_runtime PyParser.total str_of_int
            (Some [("exit.py", Ok [("leave", Callable quit)])])
            (Some "1 + leave()") 0 []
          = ([], Uncaught (BaseExc SystemExit ""))) as Hmain
    by (vm_compute; reflexivity).
  split; [exact Hmain|].
  exact (main_dies_only_of_a_plugin _ _ _ _ _ _ _ _ _ Hmain).
Defined.

(** ** [round] *)

Lemma round_half_even_nearest x s m e :
  Prim2SF x = S754_finite s m e ->
  exists z, Binary64.round_half_even x = Some z /\ nearest_integer z s m e.
Proof.
  intros Hx. unfold Binary64.round_half_even, nearest_integer. rewrite Hx.
  destruct (0 <=? e) eqn:He; [by eexists|].
  apply Z.leb_gt in He.
  set (d := 2 ^ (- e)).
  assert (0 < d) as Hd by (apply Z.pow_pos_nonneg; lia).
  pose proof (Z.div_mod (Z.pos m) d ltac:(lia)) as Hdiv.
  pose proof (Z.mod_pos_bound (Z.pos m) d Hd) as Hmod.
  set (q := Z.pos m / d) in *. set (r := Z.pos m mod d) in *.
  eexists. split; [reflexivity|]. cbv zeta.
  assert (forall z0, Z.abs (cond_Zopp s z0 * d - cond_Zopp s (Z.pos m))
                     = Z.abs (z0 * d - Z.pos m)) as ->
    by (intros z0; destruct s; simpl; lia).
  assert (forall z0, Z.even (cond_Zopp s z0) = Z.even z0) as ->
    by (intros z0; destruct s; simpl; [apply Z.even_opp|done]).
  destruct (d <? 2 * r) eqn:Hlt; simpl.
  - apply Z.ltb_lt in Hlt. split; [nia|]. intros Htie. nia.
  - apply Z.ltb_ge in Hlt. destruct (d =? 2 * r) eqn:Heq; simpl.
    + apply Z.eqb_eq in Heq. destruct (Z.odd q) eqn:Hodd.
      * split; [nia|]. intros _. by rewrite Z.even_add, <- Z.negb_odd, Hodd.
      * split; [nia|]. intros _. by rewrite <- Z.negb_odd, Hodd.
    + apply Z.eqb_neq in Heq. split; [nia|]. intros Htie. nia.
Qed.

(** X18: [round] of one argument that evaluates to a float returns an
    int, the integer nearest to the float and of two nearest integers the
    even one; it raises [OverflowError] on an infinity and [ValueError]
    on a NaN. *)
Theorem round_is_the_nearest_integer rt PLUGINS arg keywords x :
  _eval_node rt PLUGINS arg = Ok (VNum (Float x)) ->
  match Prim2SF x with
  | S754_zero _ =>
      _eval_node rt PLUGINS (Call (Name "round") [arg] keywords)
      = Ok (VNum (Int 0))
  | S754_finite s m e =>
      exists z,
        _eval_node rt PLUGINS (Call (Name "round") [arg] keywords)
        = Ok (VNum (Int z))
        /\ nearest_integer z s m e
  | S754_infinity _ =>
      _eval_node rt PLUGINS (Call (Name "round") [arg] keywords)
      = Raise (Exc (Error OverflowError
                      "cannot convert float infinity to integer"))
  | S754_nan =>
      _eval_node rt PLUGINS (Call (Name "round") [arg] keywords)
      = Raise (Exc (Error ValueError "cannot convert float NaN to integer"))
  end.
Proof.
  intros Harg.
  rewrite (eval_Call_Name _ _ _ _ _ [VNum (Float x)]) by (simpl; by rewrite Harg).
  change (SAFE_FUNCTIONS rt !! "round") with (Some (builtins.round rt)).
  unfold builtins.round, builtins.round_to_int.
  destruct (Prim2SF x) as [s|s| |s m e] eqn:Hx.
  - unfold Binary64.round_half_even. by rewrite Hx.
  - unfold Binary64.round_half_even. by rewrite Hx, is_nan_spec, Hx.
  - unfold Binary64.round_half_even. by rewrite Hx, is_nan_spec, Hx.
  - destruct (round_half_even_nearest x s m e Hx) as (z & -> & Hz).
    by exists z.
Qed.

Lemma round_witness :
  _eval_node bare_runtime ∅ (Num (Float 2.5)) = Ok (VNum (Float 2.5))
  /\ Prim2SF 2.5 = S754_finite false 5629499534213120 (-51)
  /\ exists z,
       _eval_node bare_runtime ∅ (Call (Name "round") [Num (Float 2.5)] [])
       = Ok (VNum (Int z))
       /\ nearest_integer z false 5629499534213120 (-51).
Proof.
  split; [reflexivity|]. split; [vm_compute; reflexivity|].
  pose proof (round_is_the_nearest_integer bare_runtime ∅
                (Num (Float 2.5)) [] 2.5 eq_refl) as H.
  change (Prim2SF 2.5) with (S754_finite false 5629499534213120 (-51)) in H.
  exact H.
Defined.

(** ** Addition and multiplication commute *)

Lemma SFadd_comm x y : SFadd prec emax x y = SFadd prec emax y x.
Proof.
  destruct x as [[]|[]| |sx mx ex], y as [[]|[]| |sy my ey]; try reflexivity.
  simpl. by rewrite (Z.min_comm ey ex), Z.add_comm.
Qed.

Lemma SFmul_comm x y : SFmul prec emax x y = SFmul prec emax y x.
Proof.
  destruct x as [sx|sx| |sx mx ex], y as [sy|sy| |sy my ey]; simpl;
    try reflexivity; rewrite (xorb_comm sy sx); try reflexivity.
  by rewrite (Pos.mul_comm my mx), (Z.add_comm ey ex).
Qed.

Lemma float_add_comm (x y : float) : (x + y = y + x)%float.
Proof. apply Prim2SF_inj. rewrite !add_spec. apply SFadd_comm. Qed.

Lemma float_mul_comm (x y : float) : (x * y = y * x)%float.
Proof. apply Prim2SF_inj. rewrite !mul_spec. apply SFmul_comm. Qed.

Lemma add_ops_comm a b :
  (ops <- py.coerce a b ;; py.add_ops ops)
  = (ops <- py.coerce b a ;; py.add_ops ops).
Proof.
  destruct a as [a|a|a a'], b as [b|b|b b']; simpl;
    try (destruct (py.float_of_int _) as [x|e]; simpl; [|reflexivity]);
    rewrite ?(Z.add_comm b a), ?(float_add_comm b a),
      ?(float_add_comm b' a'), ?(float_add_comm b x), ?(float_add_comm x a),
      ?(float_add_comm 0 a'), ?(float_add_comm b' 0); reflexivity.
Qed.

Lemma mul_ops_comm a b :
  (ops <- py.coerce a b ;; py.mul_ops ops)
  = (ops <- py.coerce b a ;; py.mul_ops ops).
Proof.
  destruct a as [a|a|a a'], b as [b|b|b b']; simpl;
    try (destruct (py.float_of_int _) as [x|e]; simpl; [|reflexivity]);
    rewrite ?(Z.mul_comm b a), ?(float_mul_comm b a),
      ?(float_mul_comm b' a'), ?(float_mul_comm b x), ?(float_mul_comm x a),
      ?(float_mul_comm b a'), ?(float_mul_comm b' a), ?(float_mul_comm b' x),
      ?(float_mul_comm 0 a'), ?(float_mul_comm b' 0), ?(float_mul_comm 0 a),
      ?(float_mul_comm b 0), ?(float_mul_comm x a'), ?(float_mul_comm 0 x);
    try reflexivity.
  all: do 2 f_equal; f_equal; apply float_add_comm.
Qed.

(** X19: addition and multiplication commute on numbers: the operators
    of [SAFE_OPERATORS] for [+] and [*] give two numbers, of any types,
    the same outcome in both orders. Hence without plugins, when both
    operands evaluate to numbers, [l + r] and [r + l] have the same
    outcome, and so have [l * r] and [r * l]. *)
Theorem addition_and_multiplication_commute rt op f :
  op = Add \/ op = Mult ->
  SAFE_OPERATORS rt (OperatorT op) = Some f ->
  (forall a b, f [VNum a; VNum b] = f [VNum b; VNum a])
  /\ (forall l r a b,
        _eval_node rt ∅ l = Ok (VNum a) ->
        _eval_node rt ∅ r = Ok (VNum b) ->
        _eval_node rt ∅ (BinOp l op r) = _eval_node rt ∅ (BinOp r op l)).
Proof.
  intros Hop Hf.
  assert (forall a b, f [VNum a; VNum b] = f [VNum b; VNum a]) as Hcomm.
  { intros a b. destruct Hop as [-> | ->]; injection Hf as <-;
      unfold operator.add, operator.mul, operator.binary, py.arith.
    - apply add_ops_comm.
    - apply mul_ops_comm. }
  split; [exact Hcomm|].
  intros l r a b Hl Hr. rewrite !eval_BinOp, Hl, Hr. cbn [bind].
  by rewrite Hf, Hcomm.
Qed.

Lemma commute_witness :
  (Add = Add \/ Add = Mult)
  /\ SAFE_OPERATORS bare_runtime (OperatorT Add) = Some operator.add
  /\ operator.add [VNum (Int 1); VNum (Float math.pi)]
     = operator.add [VNum (Float math.pi); VNum (Int 1)]
  /\ _eval_node bare_runtime ∅ (BinOp (Num (Int 1)) Add (Name "pi"))
     = _eval_node bare_runtime ∅ (BinOp (Name "pi") Add (Num (Int 1))).
Proof.
  destruct (addition_and_multiplication_commute bare_runtime Add operator.add
              (or_introl eq_refl) eq_refl) as [Hvalues Hexpr].
  split; [by left|]. split; [reflexivity|]. split.
  - apply Hvalues.
  - by apply (Hexpr (Num (Int 1)) (Name "pi") (Int 1) (Float math.pi)).
Defined.
